(** * pac-grader: the annotation engine of [annotate.py]

    A shallow embedding of the functions of [annotate.py]
    ([insert_wrapped_text], [insert_tick], [annotate_correct_lines],
    [underline_correct_words], [annotate_pdf]) and the properties the
    specification states about them.

    Conventions.
    - A Python [str] is a [string]; its characters are code points below 256.
    - A Python [float] is the rational it denotes ([Q]); arithmetic is exact.
      [round(v, 1)] is the number of tenths nearest to [v], ties to even.
    - The PDF toolkit (PyMuPDF), [ast.literal_eval], the font metrics and the
      file system are not part of the repository: they enter through the
      class [Toolkit] and the record [World], and every theorem holds for
      all of them. The drawing primitives are taken where they return: a
      call adds one item of ink to its page. *)

From Stdlib Require Import Ascii QArith Sorting.Sorted Permutation.
From stdpp Require Import base list strings gmap.

Local Open Scope Z_scope.

(** ** Python built-ins used by the program *)

Module Py.

Definition chars (s : string) : list ascii := String.list_ascii_of_string s.
Definition str (l : list ascii) : string := String.string_of_list_ascii l.

Definition code (c : ascii) : N := Ascii.N_of_ascii c.

(** [str.isspace] on one character. *)
Definition isspace (c : ascii) : bool :=
  let n := code c in
  ((9 <=? n) && (n <=? 13) || (28 <=? n) && (n <=? 32)
   || (n =? 133) || (n =? 160))%N.

(** The class [\w] of [re] on a [str] pattern: alphanumerics and [_]. *)
Definition isword (c : ascii) : bool :=
  let n := code c in
  ((48 <=? n) && (n <=? 57) || (65 <=? n) && (n <=? 90) || (n =? 95)
   || (97 <=? n) && (n <=? 122)
   || (n =? 170) || (n =? 178) || (n =? 179) || (n =? 181) || (n =? 185)
   || (n =? 186) || (188 <=? n) && (n <=? 190)
   || (192 <=? n) && (n <=? 214) || (216 <=? n) && (n <=? 246)
   || (248 <=? n))%N.

Definition lower_char (c : ascii) : ascii :=
  let n := code c in
  if ((65 <=? n) && (n <=? 90) || (192 <=? n) && (n <=? 214)
      || (216 <=? n) && (n <=? 222))%N
  then Ascii.ascii_of_N (n + 32) else c.

(** [s.lower()] *)
Definition lower (s : string) : string := str (lower_char <$> chars s).

Fixpoint drop_while (p : ascii → bool) (l : list ascii) : list ascii :=
  match l with
  | [] => []
  | c :: l' => if p c then drop_while p l' else l
  end.

(** [s.strip()] *)
Definition strip (s : string) : string :=
  str (rev (drop_while isspace (rev (drop_while isspace (chars s))))).

(** [bool(s)]: a string is true when it is not empty. *)
Definition truthy (s : string) : bool :=
  match s with EmptyString => false | _ => true end.

(** Maximal runs of the characters that satisfy [p], left to right. *)
Definition flush (cur : list ascii) : list (list ascii) :=
  match cur with [] => [] | _ => [rev cur] end.

Fixpoint runs_go (p : ascii → bool) (cur l : list ascii)
  : list (list ascii) :=
  match l with
  | [] => flush cur
  | c :: l' =>
      if p c then runs_go p (c :: cur) l'
      else flush cur ++ runs_go p [] l'
  end.

Definition runs (p : ascii → bool) (s : string) : list string :=
  str <$> runs_go p [] (chars s).

(** [s.split()]: the words between runs of white space. *)
Definition split (s : string) : list string :=
  runs (λ c, negb (isspace c)) s.

(** [re.findall(r'\b\w+\b', s)]: the maximal runs of word characters. *)
Definition findall_words (s : string) : list string := runs isword s.

(** [s[:n]] *)
Definition slice_to (n : nat) (s : string) : string := str (take n (chars s)).

(** [s[a:b]] for [0 <= a], [0 <= b]. *)
Definition slice (a b : nat) (s : string) : string :=
  str (take (b - a) (drop a (chars s))).

Fixpoint is_prefix (p l : list ascii) : bool :=
  match p, l with
  | [], _ => true
  | a :: p', b :: l' => if decide (a = b) then is_prefix p' l' else false
  | _ :: _, [] => false
  end.

Fixpoint contains_list (p l : list ascii) : bool :=
  is_prefix p l || match l with [] => false | _ :: l' => contains_list p l' end.

(** [needle in s] *)
Definition contains (needle s : string) : bool :=
  contains_list (chars needle) (chars s).

(** Index of the first [c] in [l], counted from [i]. *)
Fixpoint find_from (c : ascii) (i : nat) (l : list ascii) : option nat :=
  match l with
  | [] => None
  | d :: l' => if decide (d = c) then Some i else find_from c (S i) l'
  end.

(** [s.find(c, start)] for a one-character needle; [None] is Python's -1. *)
Definition find (c : ascii) (start : nat) (s : string) : option nat :=
  find_from c start (drop start (chars s)).

(** Index of the last [c] in [l], counted from [i]. *)
Fixpoint rfind_from (c : ascii) (i : nat) (l : list ascii) : option nat :=
  match l with
  | [] => None
  | d :: l' =>
      match rfind_from c (S i) l' with
      | Some j => Some j
      | None => if decide (d = c) then Some i else None
      end
  end.

(** [s.rfind(c, 0, stop)] for a one-character needle. *)
Definition rfind (c : ascii) (stop : nat) (s : string) : option nat :=
  rfind_from c 0%nat (take stop (chars s)).

Definition isdigit (c : ascii) : bool :=
  let n := code c in ((48 <=? n) && (n <=? 57))%N.

Definition islower_az (c : ascii) : bool :=
  let n := code c in ((97 <=? n) && (n <=? 122))%N.

Fixpoint take_while (p : ascii → bool) (l : list ascii) : list ascii :=
  match l with
  | c :: l' => if p c then c :: take_while p l' else []
  | [] => []
  end.

(** A match of [\d+\.\d+(?:\([a-z]\))?(?!\d)] at the head of [l],
    which starts a run of digits. *)
Definition label_at (l : list ascii) : option (list ascii) :=
  let d1 := take_while isdigit l in
  match d1, drop_while isdigit l with
  | _ :: _, dot :: r =>
      if bool_decide (dot = "."%char) then
        let d2 := take_while isdigit r in
        match d2 with
        | [] => None
        | _ :: _ =>
            let core := d1 ++ dot :: d2 in
            match drop_while isdigit r with
            | op :: c :: cl :: r' =>
                if bool_decide (op = "("%char) && islower_az c
                   && bool_decide (cl = ")"%char)
                   && negb (match r' with d :: _ => isdigit d | [] => false end)
                then Some (core ++ [op; c; cl])
                else Some core
            | _ => Some core
            end
        end
      else None
  | _, _ => None
  end.

(** The scan of [re.finditer]: [pos] is the offset of the head of [l],
    [prev] the character before it, [skip] what is left of the last
    match. *)
Fixpoint finditer_go (skip pos : nat) (prev : option ascii)
    (l : list ascii) : list (list ascii * nat) :=
  match l with
  | [] => []
  | c :: l' =>
      match skip with
      | S k => finditer_go k (S pos) (Some c) l'
      | O =>
          let behind := match prev with Some d => isdigit d | None => false end in
          match (if behind then None else label_at l) with
          | Some m => (m, pos) :: finditer_go (length m - 1) (S pos) (Some c) l'
          | None => finditer_go 0 (S pos) (Some c) l'
          end
      end
  end.

(** [re.finditer(question_pattern, s)] with the pattern of [annotate_pdf],
    [(?<!\d)\d+\.\d+(?:\([a-z]\))?(?!\d)]: each match with its start. *)
Definition finditer_question (s : string) : list (string * nat) :=
  (λ m : list ascii * nat, (str m.1, m.2)) <$> finditer_go 0 0 None (chars s).

(** Round to the nearest integer, ties to even. *)
Definition round_half_even (q : Q) : Z :=
  let n := Qnum q in
  let d := Z.pos (Qden q) in
  let f := n / d in
  let r2 := 2 * (n mod d) in
  if r2 <? d then f
  else if d <? r2 then f + 1
  else if Z.even f then f else f + 1.

(** [round(v, 1)], as a number of tenths. *)
Definition round1 (v : Q) : Z := round_half_even (v * 10)%Q.

(** [a > b] on floats. *)
Definition gt (a b : Q) : bool := negb (Qle_bool a b).

(** [max(a, b)]: the first of the largest. *)
Definition max (a b : Q) : Q := if gt b a then b else a.

End Py.

(** ** Data model *)

(** A bounding box, as [fitz.Rect]. *)
Record Rect := mkRect { x0 : Q; y0 : Q; x1 : Q; y1 : Q }.

(** An RGB triple. *)
Definition Color : Type := Z * Z * Z.
Definition red : Color := (1, 0, 0).
Definition blue : Color := (0, 0, 1).

(** What the program draws on a page, one item per call of a drawing
    primitive: [page.insert_text], the check mark written by
    [fitz.TextWriter], [page.draw_line]. *)
Inductive Ink :=
| InkText (x y : Q) (text : string) (fontsize : Q) (color : Color)
          (fontname : string)
| InkTick (x y : Q)
| InkLine (xa ya xb yb : Q).

(** A page: its extent, the text spans of the file with their boxes, and
    the ink added so far (oldest first). Drawing only adds ink. *)
Record Page := mkPage {
  page_width : Q;
  page_height : Q;
  page_spans : list (string * Rect);
  page_ink : list Ink
}.

Definition draw (i : Ink) (page : Page) : Page :=
  mkPage (page_width page) (page_height page) (page_spans page)
         (page_ink page ++ [i]).

(** A Python value, as far as the program tells values apart
    ([isinstance(_, str)], [isinstance(_, list)]). *)
#[warnings="-register-all"]
Inductive PyVal :=
| VStr (s : string)
| VList (l : list PyVal)
| VOther.

(** Outcome of [ast.literal_eval]: a value, the [ValueError] or
    [SyntaxError] the program catches, or another exception. *)
Inductive EvalResult :=
| Parsed (v : PyVal)
| Malformed
| Crashed.

(** The external collaborators. *)
Class Toolkit := {
  (** [page.search_for(needle)]: boxes of the verbatim hits, in order. *)
  search_for : Page → string → list Rect;
  (** [page.get_text("text")] *)
  get_text : Page → string;
  (** [fitz.Font(fontname=...)] and its [text_length(text, fontsize)];
      [None] when the font cannot be created. *)
  font : string → option (string → Q → Q);
  (** [ast.literal_eval] *)
  literal_eval : PyVal → EvalResult
}.

Inductive Tier := Exact | Future | Fallback.

(** Calls of the search primitive made by the tick pass, and the log lines
    the properties refer to. *)
Inductive Event :=
| Search (page : nat) (needle : string)
| LogMatch (t : Tier) (needle : string) (page : nat)
| LogFallbackTry (needle : string) (page : nat)
| LogUnmatched (line_index : nat)
| LogEmptyLine (line_index : nat)
| LogTickPresent (tick_y : Q)
| LogTickInserted (tick_x tick_y : Q)
| LogTruncated (y_limit : Q)
| LogWrapped (inserted total : nat)
| LogWrapError
| LogScoreSkipped (q_num : string)
| LogScored (q_num : string)
| LogInvalidWords (word_entry : PyVal)
| LogUnparsedWords (word_entry : PyVal).

(** ** [insert_wrapped_text] *)

Section Wrapping.
Context (text_length : string → Q → Q) (fontsize max_width : Q).

(** One turn of the loop over [words]; the state is
    [(current_line, lines)]. *)
Definition wrap_step (st : string * list string) (word : string)
  : string * list string :=
  let '(current_line, lines) := st in
  let test_line :=
    current_line +:+ (if Py.truthy current_line then " " else EmptyString) +:+ word in
  let width := text_length test_line fontsize in
  if Qle_bool width max_width then (test_line, lines)
  else (word, if Py.truthy current_line then lines ++ [current_line]
              else lines).

Definition wrap_lines (words : list string) : list string :=
  let '(current_line, lines) := foldl wrap_step (EmptyString, []) words in
  if Py.truthy current_line then lines ++ [current_line] else lines.
End Wrapping.

(** [y_pos] of line [i]. *)
Definition y_pos (y line_height : Q) (i : nat) : Q :=
  (y + inject_Z (Z.of_nat i) * line_height)%Q.

(** The loop over [enumerate(lines)], from index [i] on. The result is the
    page, the number of lines inserted and whether the loop was left by
    [break]. *)
Fixpoint draw_lines (page : Page) (x y line_height y_limit fontsize : Q)
    (color : Color) (fontname : string) (i : nat) (lines : list string)
  : Page * nat * bool :=
  match lines with
  | [] => (page, 0%nat, false)
  | line :: rest =>
      let y_pos := y_pos y line_height i in
      if Py.gt (y_pos + line_height)%Q y_limit then (page, 0%nat, true)
      else
        let '(page', inserted, broke) :=
          draw_lines (draw (InkText x y_pos line fontsize color fontname) page)
                     x y line_height y_limit fontsize color fontname (S i)
                     rest in
        (page', S inserted, broke)
  end.

Definition insert_wrapped_text {T : Toolkit} (page : Page) (x y : Q)
    (text : PyVal) (max_width fontsize : Q) (color : Color)
    (fontname : string) (y_limit : Q) : Page * list Event :=
  match font fontname, text with
  | Some text_length, VStr text =>
      let words := Py.split text in
      let lines := wrap_lines text_length fontsize max_width words in
      let line_height := (fontsize + 2)%Q in
      let '(page', inserted, broke) :=
        draw_lines page x y line_height y_limit fontsize color fontname 0
                   lines in
      (page', (if broke then [LogTruncated y_limit] else [])
              ++ [LogWrapped inserted (length lines)])
  | _, _ => (page, [LogWrapError])
  end.

(** ** [insert_tick] *)

Definition insert_tick (page : Page) (x0 y0 : Q) (placed_ticks : gset Z)
  : Page * gset Z * bool * list Event :=
  let tick_x := Py.max 10 (x0 - 25)%Q in
  let tick_y := (y0 + 10)%Q in
  let tick_key := Py.round1 tick_y in
  if decide (tick_key ∈ placed_ticks)
  then (page, placed_ticks, false, [LogTickPresent tick_y])
  else (draw (InkTick tick_x tick_y) page, placed_ticks ∪ {[tick_key]}, true,
        [LogTickInserted tick_x tick_y]).

(** ** [annotate_correct_lines] *)

(** The lines one entry of [correct_lines] contributes. *)
Definition usable (v : PyVal) : list string :=
  match v with
  | VStr ln => if Py.truthy (Py.strip ln) then [Py.strip ln] else []
  | _ => []
  end.

Definition flatten_entry {T : Toolkit} (entry : PyVal) : option (list string) :=
  match literal_eval entry with
  | Parsed (VList parsed) => Some (concat (usable <$> parsed))
  | Parsed (VStr parsed) => Some (usable (VStr parsed))
  | Parsed _ => Some []
  | Malformed => Some (usable entry)
  | Crashed => None
  end.

(** [flat_lines]; [None] when [ast.literal_eval] raises something else than
    [ValueError] or [SyntaxError], which the function does not catch. *)
Fixpoint flatten_lines {T : Toolkit} (correct_lines : list PyVal)
  : option (list string) :=
  match correct_lines with
  | [] => Some []
  | entry :: rest =>
      match flatten_entry entry, flatten_lines rest with
      | Some here, Some there => Some (here ++ there)
      | _, _ => None
      end
  end.

(** The success of the fallback tier is logged once more after the tick. *)
Definition logged_again (t : Tier) (search_text : string) (p : nat)
  : list Event :=
  match t with
  | Fallback => [LogMatch Fallback search_text p]
  | _ => []
  end.

(** The state of the loop of the tick pass. *)
Record TickState := mkTickState {
  ts_doc : list Page;
  ts_ticks : gset Z;
  ts_page_num : nat;
  ts_trace : list Event
}.

Definition line_key (inst : Rect) : Z :=
  Py.round1 ((y0 inst + y1 inst) / 2)%Q.

(** The block that follows each successful search: a tick on page [p]
    unless [line_key] is in the registry. *)
Definition mark_match (doc : list Page) (placed_ticks : gset Z) (p : nat)
    (inst : Rect) : list Page * gset Z * list Event :=
  if decide (line_key inst ∈ placed_ticks) then (doc, placed_ticks, [])
  else
    match doc !! p with
    | Some page =>
        let '(page', placed', _, ev) :=
          insert_tick page (x0 inst) (y0 inst) placed_ticks in
        (<[p := page']> doc, placed' ∪ {[line_key inst]}, ev)
    | None => (doc, placed_ticks, [])
    end.

Section Locate.
Context {T : Toolkit}.

(** The lookahead loop over [range(page_num+1, len(doc))]: [pages] are the
    pages from index [next_page] on. *)
Fixpoint lookahead (search_text : string) (next_page : nat)
    (pages : list Page) : list Event * option (nat * Rect) :=
  match pages with
  | [] => ([], None)
  | page :: rest =>
      match search_for page search_text with
      | inst :: _ => ([Search next_page search_text], Some (next_page, inst))
      | [] =>
          let '(ev, r) := lookahead search_text (S next_page) rest in
          (Search next_page search_text :: ev, r)
      end
  end.

(** The loop over [words_in_line] on one fallback page. *)
Fixpoint word_scan (fb_page : Page) (fallback_page : nat)
    (words : list string) (word_hits : list Rect)
  : list Event * option Rect :=
  match words with
  | [] => ([], None)
  | word :: rest =>
      let word_hits :=
        match search_for fb_page word with
        | inst :: _ => word_hits ++ [inst]
        | [] => word_hits
        end in
      if (4 <=? length word_hits)%nat
      then ([Search fallback_page word], head word_hits)
      else
        let '(ev, r) := word_scan fb_page fallback_page rest word_hits in
        (Search fallback_page word :: ev, r)
  end.

(** The loop over [[page_num, page_num + 1]]. *)
Fixpoint fallback (doc : list Page) (search_text : string)
    (candidates : list nat) : list Event * option (nat * Rect) :=
  match candidates with
  | [] => ([], None)
  | fallback_page :: rest =>
      match doc !! fallback_page with
      | None => fallback doc search_text rest
      | Some fb_page =>
          let '(ev, r) :=
            word_scan fb_page fallback_page
                      (Py.findall_words search_text) [] in
          match r with
          | Some inst =>
              (LogFallbackTry search_text fallback_page :: ev,
               Some (fallback_page, inst))
          | None =>
              let '(ev', r') := fallback doc search_text rest in
              (LogFallbackTry search_text fallback_page :: ev ++ ev', r')
          end
      end
  end.

(** The three tiers for one line: the searches made, and the tier, page
    and box of the match if there is one. *)
Definition locate (doc : list Page) (page_num : nat) (page : Page)
    (search_text : string) : list Event * option (Tier * nat * Rect) :=
  match search_for page search_text with
  | inst :: _ => ([Search page_num search_text], Some (Exact, page_num, inst))
  | [] =>
      let '(ev2, r2) :=
        lookahead search_text (S page_num) (drop (S page_num) doc) in
      match r2 with
      | Some (p, inst) =>
          (Search page_num search_text :: ev2, Some (Future, p, inst))
      | None =>
          let '(ev3, r3) :=
            fallback doc search_text [page_num; S page_num] in
          (Search page_num search_text :: ev2 ++ ev3,
           match r3 with
           | Some (p, inst) => Some (Fallback, p, inst)
           | None => None
           end)
      end
  end.

(** One turn of the [while] loop; [page] is [doc[page_num]]. *)
Definition process_line (st : TickState) (page : Page) (line_index : nat)
    (line : string) : TickState :=
  let search_text := Py.strip (Py.slice_to 50 line) in
  if negb (Py.truthy search_text)
  then mkTickState (ts_doc st) (ts_ticks st) (ts_page_num st)
                   (ts_trace st ++ [LogEmptyLine line_index])
  else
    let '(ev, r) := locate (ts_doc st) (ts_page_num st) page search_text in
    match r with
    | Some (t, p, inst) =>
        let '(doc', placed', ev') :=
          mark_match (ts_doc st) (ts_ticks st) p inst in
        mkTickState doc' placed' p
          (ts_trace st ++ ev ++ [LogMatch t search_text p] ++ ev'
           ++ logged_again t search_text p)
    | None =>
        mkTickState (ts_doc st) (ts_ticks st) (ts_page_num st)
          (ts_trace st ++ ev ++ [LogUnmatched (S line_index)])
    end.

(** The [while line_index < total_lines and page_num < len(doc)] loop,
    with [lines] the lines from [line_index] on. *)
Fixpoint tick_loop (st : TickState) (line_index : nat)
    (lines : list string) : TickState :=
  match lines with
  | [] => st
  | line :: rest =>
      match ts_doc st !! ts_page_num st with
      | None => st
      | Some page =>
          tick_loop (process_line st page line_index line)
                    (S line_index) rest
      end
  end.

(** The pass. [None]: an exception leaves the function. *)
Definition annotate_correct_lines (doc : list Page)
    (correct_lines : list PyVal) : option TickState :=
  flat_lines ← flatten_lines correct_lines;
  Some (tick_loop (mkTickState doc ∅ 0 []) 0 flat_lines).
End Locate.

(** ** [underline_correct_words] *)

Section Underline.
Context {T : Toolkit}.

(** The loop over [word_instances]. *)
Definition underline_instances (page : Page) (instances : list Rect) : Page :=
  foldl (λ pg inst,
           let underline_y := (y1 inst + 2)%Q in
           draw (InkLine (x0 inst) underline_y (x1 inst) underline_y) pg)
        page instances.

(** The loop over [parsed_words]; [None]: [correct_word.strip()] raises
    because [correct_word] is not a string. *)
Fixpoint underline_words (page : Page) (parsed_words : list PyVal)
  : option Page :=
  match parsed_words with
  | [] => Some page
  | VStr correct_word :: rest =>
      let search_text := Py.strip correct_word in
      if negb (Py.truthy search_text) then underline_words page rest
      else
        underline_words
          (underline_instances page (search_for page search_text)) rest
  | _ :: _ => None
  end.

Fixpoint underline_correct_words (page : Page) (correct_words : list PyVal)
  : option (Page * list Event) :=
  match correct_words with
  | [] => Some (page, [])
  | word_entry :: rest =>
      match literal_eval word_entry with
      | Parsed (VList parsed_words) =>
          page' ← underline_words page parsed_words;
          underline_correct_words page' rest
      | Parsed _ =>
          '(page', ev) ← underline_correct_words page rest;
          Some (page', LogInvalidWords word_entry :: ev)
      | Malformed =>
          '(page', ev) ← underline_correct_words page rest;
          Some (page', LogUnparsedWords word_entry :: ev)
      | Crashed => None
      end
  end.
End Underline.

(** ** [annotate_pdf] *)

(** A row of the grades table, with the columns the function reads.
    [question_number], [score] and [total_marks] are the texts [str()] and
    the f-string give; [comment] is [row.get('comment', '')]; a missing cell
    of [correct_lines] or [correct_words] (removed by [dropna()]) is [None]. *)
Record Row := mkRow {
  question_number : string;
  score : string;
  total_marks : string;
  comment : PyVal;
  correct_lines : option PyVal;
  correct_words : option PyVal
}.

Inductive CsvResult :=
| CsvFrame (rows : list Row)
| CsvEmptyData
| CsvError.

(** The file system and the libraries that read and write it. *)
Record World := mkWorld {
  (** [os.path.exists] *)
  path_exists : string → bool;
  (** [pd.read_csv] *)
  read_csv : string → CsvResult;
  (** [fitz.open]; [None] when it raises *)
  fitz_open : string → option (list Page);
  (** does [os.makedirs(dir, exist_ok=True)] return? *)
  makedirs_ok : string → bool;
  (** does [doc.save(path)] return? *)
  save_ok : string → bool
}.

Inductive FsEffect :=
| MadeDirs (dir : string)
| SavedPdf (path : string) (doc : list Page).

(** How far a call of [annotate_pdf] got: it returned while it checked and
    loaded its inputs, an exception left the annotation steps, creating the
    directory or saving raised, or the document was saved. *)
Inductive Stage := Loading | Annotating | Saving | Done.

(** What a call of [annotate_pdf] leaves: the value returned, the stage it
    reached, the effects on the file system in order, and the annotated
    document when the annotation steps ran to their end. *)
Record RunResult := mkRun {
  run_ok : bool;
  run_stage : Stage;
  run_effects : list FsEffect;
  run_doc : option (list Page)
}.

(** A run that stopped before the document was opened. *)
Definition aborted : RunResult := mkRun false Loading [] None.

Module Path.
Definition sep : ascii := "/"%char.

Definition startswith_sep (s : string) : bool :=
  match s with String c _ => bool_decide (c = sep) | _ => false end.

Definition endswith_sep (s : string) : bool :=
  match rev (Py.chars s) with c :: _ => bool_decide (c = sep) | _ => false end.

(** One turn of the loop of [posixpath.join]. *)
Definition join_step (path b : string) : string :=
  if startswith_sep b then b
  else if negb (Py.truthy path) || endswith_sep path then path +:+ b
  else path +:+ "/" +:+ b.

(** [os.path.join(a, *p)] *)
Definition join (a : string) (p : list string) : string :=
  foldl join_step a p.

(** [os.path.dirname] *)
Definition dirname (p : string) : string :=
  let i := match Py.rfind sep (String.length p) p with
           | Some j => S j | None => 0%nat end in
  let head := take i (Py.chars p) in
  if forallb (λ c, bool_decide (c = sep)) head then Py.str head
  else Py.str (rev (Py.drop_while (λ c, bool_decide (c = sep)) (rev head))).
End Path.

Section Orchestrator.
Context {T : Toolkit}.

Definition score_dict (rows : list Row) : gmap string string :=
  foldl (λ m row,
           <[question_number row := score row +:+ "/" +:+ total_marks row]> m)
        ∅ rows.

Definition comment_dict (rows : list Row) : gmap string PyVal :=
  foldl (λ m row, <[question_number row := comment row]> m) ∅ rows.

(** [question_positions] before it is sorted. *)
Definition locate_questions (page : Page) (text_on_page : string)
  : list (string * Q * nat) :=
  omap (λ m : string * nat,
          let '(q_num, start_pos) := m in
          match search_for page q_num with
          | r :: _ => Some (q_num, y0 r, start_pos)
          | [] => None
          end)
       (Py.finditer_question text_on_page).

(** [list.sort(key=lambda x: x[1])]: a stable sort on the anchor. *)
Fixpoint insert_by_y (e : string * Q * nat) (l : list (string * Q * nat))
  : list (string * Q * nat) :=
  match l with
  | [] => [e]
  | e' :: l' =>
      if Py.gt (e.1.2) (e'.1.2) then e' :: insert_by_y e l'
      else e :: l
  end.

Definition sort_by_y (l : list (string * Q * nat))
  : list (string * Q * nat) :=
  foldr insert_by_y [] l.

(** The lower end [y1] of the span of entry [i]. *)
Definition span_end (question_positions : list (string * Q * nat))
    (page : Page) (i : nat) : Q :=
  match question_positions !! S i with
  | Some next => next.1.2
  | None => page_height page
  end.

(** The text of the line of [text_on_page] around [start_pos]. *)
Definition surrounding (text_on_page : string) (start_pos : nat) : string :=
  let line_start :=
    match Py.rfind "010"%char start_pos text_on_page with
    | Some j => S j | None => 0%nat end in
  let line_end :=
    match Py.find "010"%char start_pos text_on_page with
    | Some j => j | None => String.length text_on_page end in
  Py.strip (Py.slice line_start line_end text_on_page).

Definition stoplist : list string := ["marks"; "/"; "score"; "total"].

Definition looks_like_score (surrounding_text : string) : bool :=
  existsb (λ keyword, Py.contains keyword (Py.lower surrounding_text))
          stoplist.

(** The score branch of the loop body. *)
Definition place_score (scores : gmap string string) (page : Page)
    (annotated_questions : gset string) (q_num surrounding_text : string)
  : Page * gset string * list Event :=
  if looks_like_score surrounding_text
  then (page, annotated_questions, [LogScoreSkipped q_num])
  else
    match scores !! q_num with
    | Some score_text =>
        if decide (q_num ∈ annotated_questions)
        then (page, annotated_questions, [])
        else
          match search_for page q_num with
          | inst :: _ =>
              let text_x := (x0 inst + -40)%Q in
              let text_y := (y0 inst + 10)%Q in
              (draw (InkText text_x text_y score_text 12 blue "helv") page,
               annotated_questions ∪ {[q_num]}, [LogScored q_num])
          | [] => (page, annotated_questions, [])
          end
    | None => (page, annotated_questions, [])
    end.

(** The comment branch of the loop body. *)
Definition place_comment (comments : gmap string PyVal) (page : Page)
    (q_num : string) (y0 y1 : Q) : Page * list Event :=
  match comments !! q_num with
  | Some comment =>
      let x_left := (page_width page - 90)%Q in
      insert_wrapped_text page x_left y0 comment 90 8 red "helv" (y1 - 5)%Q
  | None => (page, [])
  end.

(** The body of the loop over [enumerate(question_positions)]. *)
Definition annotate_question (scores : gmap string string)
    (comments : gmap string PyVal) (text_on_page : string)
    (question_positions : list (string * Q * nat))
    (st : Page * gset string * list Event) (i : nat)
    (entry : string * Q * nat) : Page * gset string * list Event :=
  let '(page, annotated_questions, trace) := st in
  let '(q_num, y0, start_pos) := entry in
  let y1 := span_end question_positions page i in
  let surrounding_text := surrounding text_on_page start_pos in
  let '(page1, annotated1, ev1) :=
    place_score scores page annotated_questions q_num surrounding_text in
  let '(page2, ev2) := place_comment comments page1 q_num y0 y1 in
  (page2, annotated1, trace ++ ev1 ++ ev2).

Fixpoint annotate_questions (scores : gmap string string)
    (comments : gmap string PyVal) (text_on_page : string)
    (question_positions : list (string * Q * nat))
    (st : Page * gset string * list Event) (i : nat)
    (todo : list (string * Q * nat)) : Page * gset string * list Event :=
  match todo with
  | [] => st
  | entry :: rest =>
      annotate_questions scores comments text_on_page question_positions
        (annotate_question scores comments text_on_page question_positions
                           st i entry)
        (S i) rest
  end.

(** The body of the loop over the pages; [None]: an exception. *)
Definition annotate_page (scores : gmap string string)
    (comments : gmap string PyVal) (words : list PyVal) (page : Page)
  : option (Page * list Event) :=
  let text_on_page := get_text page in
  let question_positions :=
    sort_by_y (locate_questions page text_on_page) in
  let '(page1, _, ev1) :=
    annotate_questions scores comments text_on_page question_positions
                       (page, ∅, []) 0 question_positions in
  match words with
  | [] => Some (page1, ev1)
  | _ :: _ =>
      '(page2, ev2) ← underline_correct_words page1 words;
      Some (page2, ev1 ++ ev2)
  end.

Fixpoint annotate_pages (scores : gmap string string)
    (comments : gmap string PyVal) (words : list PyVal)
    (pages : list Page) : option (list Page) :=
  match pages with
  | [] => Some []
  | page :: rest =>
      '(page', _) ← annotate_page scores comments words page;
      rest' ← annotate_pages scores comments words rest;
      Some (page' :: rest')
  end.

(** The [try] block that follows the opening of the document, up to the
    call of [os.makedirs]. *)
Definition annotate_doc (rows : list Row) (doc : list Page)
  : option (list Page) :=
  let lines := omap correct_lines rows in
  let words := omap correct_words rows in
  doc1 ← annotate_pages (score_dict rows) (comment_dict rows) words doc;
  match lines with
  | [] => Some doc1
  | _ :: _ => ts_doc <$> annotate_correct_lines doc1 lines
  end.

Definition output_path (output_dir student_name : string) : string :=
  let student_lower := Py.lower student_name in
  Path.join output_dir [student_lower; student_lower +:+ "_annotated.pdf"].

Definition annotate_pdf (w : World)
    (input_dir output_dir student_name grades_csv_path : string)
  : RunResult :=
  let input_pdf_path := input_dir in
  let output_pdf_path := output_path output_dir student_name in
  if negb (path_exists w input_pdf_path) then aborted
  else if negb (path_exists w grades_csv_path) then aborted
  else
    match read_csv w grades_csv_path with
    | CsvEmptyData | CsvError => aborted
    | CsvFrame rows =>
        match fitz_open w input_pdf_path with
        | None => aborted
        | Some doc =>
            match annotate_doc rows doc with
            | None => mkRun false Annotating [] None
            | Some doc' =>
                let dir := Path.dirname output_pdf_path in
                if negb (makedirs_ok w dir)
                then mkRun false Saving [] (Some doc')
                else if negb (save_ok w output_pdf_path)
                then mkRun false Saving [MadeDirs dir] (Some doc')
                else mkRun true Done
                           [MadeDirs dir; SavedPdf output_pdf_path doc']
                           (Some doc')
            end
        end
    end.
End Orchestrator.

(** ** Vocabulary of the properties *)

(** A trace is forward-only from page [p]: every search is on a page not
    before the page of the last match ([p] at the start), and the matches
    are on pages that never decrease. *)
Fixpoint forward_from (p : nat) (trace : list Event) : Prop :=
  match trace with
  | [] => True
  | Search q _ :: rest => (p ≤ q)%nat ∧ forward_from p rest
  | LogMatch _ _ q :: rest => (p ≤ q)%nat ∧ forward_from q rest
  | _ :: rest => forward_from p rest
  end.

(** The page of the last match of a trace, [p] if there is none. *)
Definition last_match (p : nat) (trace : list Event) : nat :=
  foldl (λ p e, match e with LogMatch _ _ q => q | _ => p end) p trace.

(** The first hit of each word that has one, in the order of the words. *)
Definition token_hits {T : Toolkit} (page : Page) (words : list string)
  : list Rect :=
  omap (λ word, head (search_for page word)) words.

(** The words of [words] that have a hit on [page], each counted once. *)
Definition distinct_found {T : Toolkit} (page : Page) (words : list string)
  : list string :=
  remove_dups (filter (λ word, search_for page word ≠ []) words).

(** No page from [page_num] on has a verbatim hit for [search_text]. *)
Definition no_exact_from {T : Toolkit} (doc : list Page) (page_num : nat)
    (search_text : string) : Prop :=
  ∀ q page, (page_num ≤ q)%nat → doc !! q = Some page →
            search_for page search_text = [].

(** Fewer than four words of [search_text] have a hit on page [q]. *)
Definition few_hits_on {T : Toolkit} (doc : list Page) (q : nat)
    (search_text : string) : Prop :=
  ∀ page, doc !! q = Some page →
          (length (token_hits page (Py.findall_words search_text)) < 4)%nat.

(** The tick [insert_tick] draws for a match at [inst]. *)
Definition tick_for (inst : Rect) : Ink :=
  InkTick (Py.max 10 (x0 inst - 25)%Q) (y0 inst + 10)%Q.

(** The state one turn of the loop leaves when tier [t] matched
    [search_text] at [inst] on page [p], after the events [ev]. *)
Definition matched_state (st : TickState) (t : Tier) (search_text : string)
    (p : nat) (inst : Rect) (ev : list Event) : TickState :=
  let '(doc', placed', ev') := mark_match (ts_doc st) (ts_ticks st) p inst in
  mkTickState doc' placed' p
    (ts_trace st ++ ev ++ [LogMatch t search_text p] ++ ev'
     ++ logged_again t search_text p).

(** The heights of the ticks drawn on the pages of a document. *)
Definition tick_of (i : Ink) : option Q :=
  match i with InkTick _ y => Some y | _ => None end.

Definition tick_ys (doc : list Page) : list Q :=
  doc ≫= (λ page, omap tick_of (page_ink page)).

(** From [(doc, placed)] to [(doc', placed')] the ticks at the heights [new]
    were drawn: their rounded heights differ from each other, were not in
    the registry before and are in it after, and the registry only grew. *)
Definition adds_ticks (doc : list Page) (placed : gset Z) (doc' : list Page)
    (placed' : gset Z) (new : list Q) : Prop :=
  tick_ys doc' ≡ₚ (tick_ys doc ++ new)
  ∧ NoDup (Py.round1 <$> new)
  ∧ (∀ y, y ∈ new → (Py.round1 y ∉ placed) ∧ Py.round1 y ∈ placed')
  ∧ placed ⊆ placed'.

(** A token of [runs p]: not empty, made of characters of [p] only. *)
Definition token (p : ascii → bool) (w : list ascii) : Prop :=
  w ≠ [] ∧ Forall (λ c, p c = true) w.

Section WrapVocabulary.
Context (text_length : string → Q → Q) (fontsize max_width : Q).

Local Abbreviation width L := (text_length L fontsize).

(** A line is a word of the input, or was measured and found to fit. *)
Definition line_ok (words : list string) (L : string) : Prop :=
  L ∈ words ∨ (width L <= max_width)%Q.

Definition wrap_inv (words : list string) (st : string * list string)
  : Prop :=
  (Py.truthy st.1 = true → line_ok words st.1) ∧ Forall (line_ok words) st.2.

(** Adding text never makes it narrower. *)
Definition monotone_width : Prop :=
  ∀ a b, (width b <= width (a +:+ b))%Q ∧ (width a <= width (a +:+ b))%Q.
End WrapVocabulary.

(** The lines the loop ends with, from any state. *)
Definition wrap_close (st : string * list string) : list string :=
  if Py.truthy st.1 then st.2 ++ [st.1] else st.2.

Section DrawVocabulary.
Context (x y line_height y_limit fontsize : Q) (color : Color)
        (fontname : string).

(** The bottom edge of line [i] is within [y_limit]. *)
Definition fits (i : nat) : Prop :=
  (y_pos y line_height i + line_height <= y_limit)%Q.

(** What [page.insert_text] draws for line [i]. *)
Definition text_ink (i : nat) (line : string) : Ink :=
  InkText x (y_pos y line_height i) line fontsize color fontname.
End DrawVocabulary.

(** Events of the search for one line, from pointer [pn]: searches on
    pages from [pn] on, and no match line. *)
Definition probe_from (pn : nat) (e : Event) : Prop :=
  match e with
  | Search q _ => (pn ≤ q)%nat
  | LogMatch _ _ _ => False
  | _ => True
  end.

(** Events that neither search nor report a match. *)
Definition quiet (e : Event) : Prop :=
  match e with Search _ _ | LogMatch _ _ _ => False | _ => True end.

(** What the fallback tier returns on one page. *)
Definition fallback_on {T : Toolkit} (q : nat) (page : Page) (text : string)
  : option (nat * Rect) :=
  let hits := token_hits page (Py.findall_words text) in
  if (4 <=? length hits)%nat then (λ inst, (q, inst)) <$> head hits
  else None.

(** The order of the anchors. *)
Definition by_anchor (a b : string * Q * nat) : Prop := (a.1.2 <= b.1.2)%Q.

(** ** Sample collaborators

    A toolkit to run the functions on: the search primitive returns the
    boxes of the spans that contain the needle, the text of a page is its
    spans one per line, every character of the one font ["helv"] is half
    the font size wide, and [ast.literal_eval] is given on the cells used
    in the examples. *)

Module Sample.
Definition span_search (page : Page) (needle : string) : list Rect :=
  snd <$> filter (λ sp, Py.contains needle sp.1 = true) (page_spans page).

Definition span_text (page : Page) : string :=
  foldr (λ sp acc, sp.1 +:+ String "010"%char acc) EmptyString
        (page_spans page).

Definition fixed_pitch (text : string) (fontsize : Q) : Q :=
  (inject_Z (Z.of_nat (String.length text)) * (fontsize * (1 # 2)))%Q.

Definition helv_only (fontname : string) : option (string → Q → Q) :=
  if decide (fontname = "helv") then Some fixed_pitch else None.

Definition eval_cell (v : PyVal) : EvalResult :=
  match v with
  | VStr s =>
      if decide (s = "['line one', 'line two']")
      then Parsed (VList [VStr "line one"; VStr "line two"])
      else if decide (s = "['net profit', 'gross margin']")
      then Parsed (VList [VStr "net profit"; VStr "gross margin"])
      else if decide (s = "42") then Parsed VOther
      else Malformed
  | _ => Malformed
  end.

Definition toolkit : Toolkit :=
  {| search_for := span_search; get_text := span_text;
     font := helv_only; literal_eval := eval_cell |}.

(** A line of text of height 10 whose box starts at [(x, y)]. *)
Definition span (text : string) (x y : Z) : string * Rect :=
  (text, mkRect (inject_Z x) (inject_Z y) (inject_Z x + 200) (inject_Z y + 10)).

(** A page of 600 by 800 points. *)
Definition page (spans : list (string * Rect)) : Page :=
  mkPage 600 800 spans [].

(** Three pages: "gross margin" is on the first page only, "net profit"
    on the third page only. *)
Definition doc3 : list Page :=
  [page [span "Q1 gross margin rose" 72 100];
   page [span "continued" 72 100];
   page [span "the net profit fell" 72 300]].

(** One page with four words, each on a line of its own. *)
Definition words_page : Page :=
  page [span "alpha" 72 100; span "beta" 72 120; span "gamma" 72 140;
        span "delta" 72 160].

(** Three question labels, at heights 100, 400 and 250 in text order. *)
Definition labels_page : Page :=
  page [span "1.1 Define cost" 72 100; span "1.3 Explain" 72 400;
        span "1.2 Compute" 72 250].

(** A marks tally that looks like a label, and a question. *)
Definition marks_page : Page :=
  page [span "2.1 / 5 marks" 72 100; span "2.2 Discuss" 72 300].

Definition rows : list Row :=
  [mkRow "2.1" "3" "5" (VStr "good work") None None;
   mkRow "2.2" "4" "5" (VStr "well argued") None None].

(** A file system with the script of one student and its grades. *)
Definition world : World :=
  mkWorld (λ path, bool_decide (path ∈ ["in/eve.pdf"; "grades/eve.csv"]))
          (λ path, if decide (path = "grades/eve.csv") then CsvFrame rows
                   else CsvError)
          (λ path, if decide (path = "in/eve.pdf") then Some [marks_page]
                   else None)
          (λ _, true) (λ _, true).

(** A comment of nine words; three of them fit a line 90 points wide. *)
Definition nine_words : string :=
  "alpha1 alpha2 alpha3 bravo1 bravo2 bravo3 delta1 delta2 delta3".
End Sample.

(** * Properties *)

(** ** The built-ins on sample inputs *)

Example strip_sample : Py.strip "  lone line  " = "lone line".
Proof. reflexivity. Qed.

Example split_sample : Py.split " good  work " = ["good"; "work"].
Proof. reflexivity. Qed.

Example findall_words_sample :
  Py.findall_words "net profit, 2.5% up" = ["net"; "profit"; "2"; "5"; "up"].
Proof. reflexivity. Qed.

Example lower_sample : Py.lower "2.1 / 5 Marks" = "2.1 / 5 marks".
Proof. reflexivity. Qed.

(** 12.52 rounds to 12.5; the ties 1.25 and 1.35 round to the even tenth. *)
Example round1_sample :
  Py.round1 (1252 # 100) = 125 ∧ Py.round1 (125 # 100) = 12
  ∧ Py.round1 (135 # 100) = 14.
Proof. done. Qed.

(** Labels are found at the start of a run of digits, with an optional
    letter in parentheses that a digit must not follow. *)
Example finditer_question_sample :
  Py.finditer_question "1.2 and 3.4(a) then 12.5(b)7 x1.5 1.2.3 20.11.2024 7."
  = [("1.2", 0); ("3.4(a)", 8); ("12.5", 20); ("1.5", 30); ("1.2", 34);
     ("20.11", 40)]%nat.
Proof. reflexivity. Qed.

Example path_sample :
  Path.join "out" ["eve"; "eve_annotated.pdf"] = "out/eve/eve_annotated.pdf"
  ∧ Path.join "out/" ["eve"; "eve_annotated.pdf"] = "out/eve/eve_annotated.pdf"
  ∧ Path.join "out" ["/eve"; "/eve_annotated.pdf"] = "/eve_annotated.pdf"
  ∧ Path.dirname "out/eve/eve_annotated.pdf" = "out/eve".
Proof. done. Qed.

(** ** Strings *)

Lemma str_chars s : Py.str (Py.chars s) = s.
Proof. apply String.string_of_list_ascii_of_string. Qed.

Lemma chars_str l : Py.chars (Py.str l) = l.
Proof. apply String.list_ascii_of_string_of_list_ascii. Qed.

Lemma truthy_chars s : Py.truthy s = true ↔ Py.chars s ≠ [].
Proof. destruct s; simpl; split; intros; congruence. Qed.

Lemma truthy_str l : Py.truthy (Py.str l) = true ↔ l ≠ [].
Proof. rewrite truthy_chars, chars_str. done. Qed.

Lemma flush_tokens p cur :
  Forall (λ c, p c = true) cur → Forall (token p) (Py.flush cur).
Proof.
  intros Hcur. destruct cur as [|c cur]; simpl; [constructor|].
  repeat constructor.
  - intros E. apply (f_equal length) in E. rewrite length_app in E.
    simpl in E. lia.
  - apply Forall_app. split; [|by inversion Hcur; repeat constructor].
    apply Forall_rev. by inversion Hcur.
Qed.

Lemma runs_go_tokens p l : ∀ cur,
  Forall (λ c, p c = true) cur → Forall (token p) (Py.runs_go p cur l).
Proof.
  induction l as [|c l IH]; intros cur Hcur; simpl.
  - by apply flush_tokens.
  - destruct (p c) eqn:Hc.
    + apply IH. by constructor.
    + apply Forall_app. split; [by apply flush_tokens|]. apply IH. constructor.
Qed.

Lemma runs_go_token p w : ∀ cur,
  Forall (λ c, p c = true) w → cur ≠ [] ∨ w ≠ [] →
  Py.runs_go p cur w = [rev cur ++ w].
Proof.
  induction w as [|c w IH]; intros cur Hw Hne; simpl.
  - destruct Hne as [Hne|]; [|done]. rewrite app_nil_r.
    by destruct cur.
  - inversion Hw as [|?? Hc Hw']; subst. rewrite Hc.
    rewrite IH by (auto; left; done). simpl. by rewrite <- app_assoc.
Qed.

(** The words of [split] hold no white space and are not empty, and
    splitting such a word gives it back. *)
Lemma split_word_fixpoint text w :
  w ∈ Py.split text → Py.split w = [w] ∧ Py.truthy w = true.
Proof.
  unfold Py.split, Py.runs. intros Hw.
  apply list_elem_of_fmap in Hw as (l & -> & Hl).
  pose proof (runs_go_tokens (λ c, negb (Py.isspace c)) (Py.chars text) []
                ltac:(constructor)) as Htok.
  rewrite Forall_forall in Htok. destruct (Htok l Hl) as [Hne Hall].
  split; [|by apply truthy_str].
  rewrite chars_str, runs_go_token by auto. done.
Qed.

(** ** The greedy wrap *)

Section WrapFacts.
Context (text_length : string → Q → Q) (fontsize max_width : Q).

Local Abbreviation line_ok := (line_ok text_length fontsize max_width).
Local Abbreviation wrap_inv := (wrap_inv text_length fontsize max_width).
Local Abbreviation monotone_width := (monotone_width text_length fontsize).

Local Abbreviation step := (wrap_step text_length fontsize max_width).
Local Abbreviation width L := (text_length L fontsize).

Lemma wrap_step_inv words st word :
  word ∈ words → wrap_inv words st → wrap_inv words (step st word).
Proof.
  intros Hin [Hcur Hlines]. destruct st as [cur lines]. simpl in *.
  destruct (Qle_bool _ max_width) eqn:Hfit.
  - split; simpl; [|done]. intros _. right. by apply Qle_bool_iff.
  - split; simpl; [by left|].
    destruct (Py.truthy cur); [|done].
    apply Forall_app. split; [done|]. constructor; [by apply Hcur|constructor].
Qed.

Lemma wrap_fold_inv words : ∀ todo st,
  todo ⊆ words → wrap_inv words st → wrap_inv words (foldl step st todo).
Proof.
  induction todo as [|w todo IH]; intros st Hsub Hinv; simpl; [done|].
  apply IH; [set_solver|]. apply wrap_step_inv; [set_solver|done].
Qed.

Lemma wrap_lines_ok words :
  Forall (line_ok words) (wrap_lines text_length fontsize max_width words).
Proof.
  unfold wrap_lines.
  pose proof (wrap_fold_inv words words (EmptyString, []) (reflexivity _)) as Hinv.
  destruct (foldl step (EmptyString, []) words) as [cur lines].
  destruct Hinv as [Hcur Hlines]; [split; [done|constructor]|]. simpl in *.
  destruct (Py.truthy cur); [|done].
  apply Forall_app. split; [done|]. constructor; [by apply Hcur|constructor].
Qed.

(** Lines already closed stay. *)
Lemma wrap_step_keeps st word L : L ∈ st.2 → L ∈ (step st word).2.
Proof.
  destruct st as [cur lines]. simpl.
  destruct (Qle_bool _ max_width); simpl; [done|].
  destruct (Py.truthy cur); set_solver.
Qed.

Lemma wrap_fold_keeps L : ∀ todo st, L ∈ st.2 → L ∈ (foldl step st todo).2.
Proof.
  induction todo as [|w todo IH]; intros st HL; simpl; [done|].
  by apply IH, wrap_step_keeps.
Qed.

Lemma wrap_lines_close words :
  wrap_lines text_length fontsize max_width words
  = wrap_close (foldl step (EmptyString, []) words).
Proof. unfold wrap_lines, wrap_close. by destruct (foldl _ _ _). Qed.

Lemma wide_word_rejected a b w :
  monotone_width → (max_width < width w)%Q →
  Qle_bool (width (a +:+ b +:+ w)) max_width = false.
Proof.
  intros Hmono Hw. apply not_true_is_false. intros Hfit%Qle_bool_iff.
  destruct (Hmono b w) as [Hb _]. destruct (Hmono a (b +:+ w)) as [Hab _].
  apply (Qlt_not_le _ _ Hw). eapply Qle_trans; [|exact Hfit].
  by eapply Qle_trans.
Qed.

Lemma wide_word_not_extended w b :
  monotone_width → (max_width < width w)%Q →
  Qle_bool (width (w +:+ b)) max_width = false.
Proof.
  intros Hmono Hw. apply not_true_is_false. intros Hfit%Qle_bool_iff.
  destruct (Hmono w b) as [_ Ha].
  apply (Qlt_not_le _ _ Hw). by eapply Qle_trans.
Qed.

Lemma wide_word_alone w post st :
  monotone_width → Py.truthy w = true → (max_width < width w)%Q →
  w ∈ wrap_close (foldl step st (w :: post)).
Proof.
  intros Hmono Hne Hw. destruct st as [cur lines]. simpl.
  rewrite wide_word_rejected by done.
  destruct post as [|v post]; simpl.
  - unfold wrap_close. simpl. rewrite Hne. set_solver.
  - rewrite Hne. rewrite wide_word_not_extended by done.
    unfold wrap_close.
    set (s := (v, _)).
    assert (w ∈ (foldl step s post).2) as Hk
      by (apply wrap_fold_keeps; subst s; simpl; apply elem_of_app; right;
          apply list_elem_of_here).
    destruct (Py.truthy (foldl step s post).1);
      [apply elem_of_app; by left|done].
Qed.

Lemma wide_word_emitted words w :
  monotone_width → w ∈ words → Py.truthy w = true →
  (max_width < width w)%Q →
  w ∈ wrap_lines text_length fontsize max_width words.
Proof.
  intros Hmono Hin Hne Hw. rewrite wrap_lines_close.
  apply list_elem_of_split in Hin as (pre & post & ->).
  rewrite foldl_app. by apply wide_word_alone.
Qed.
End WrapFacts.

Lemma length_append a b :
  String.length (a +:+ b) = (String.length a + String.length b)%nat.
Proof. induction a as [|c a IH]; simpl; [done|]. by rewrite IH. Qed.

Lemma fixed_pitch_monotone fontsize :
  (0 <= fontsize)%Q → monotone_width Sample.fixed_pitch fontsize.
Proof.
  intros Hfs a b. unfold Sample.fixed_pitch. rewrite length_append.
  assert (0 <= fontsize * (1 # 2))%Q as Hhalf
    by (apply Qmult_le_0_compat; [done|discriminate]).
  split; (apply Qmult_le_compat_r; [|done]); rewrite <- Zle_Qle; lia.
Qed.

(** C10. Every line the greedy wrap emits that holds two or more words was
    measured at most [max_width] wide; a line wider than [max_width] is one
    word of the text; and, when adding text never makes it narrower, every
    word wider than [max_width] is emitted as a line of its own. *)
Theorem wrap_exceeds_only_single_word
    (text_length : string → Q → Q) (fontsize max_width : Q) (text : string) :
  let lines := wrap_lines text_length fontsize max_width (Py.split text) in
  (∀ L, L ∈ lines → (2 ≤ length (Py.split L))%nat →
        (text_length L fontsize <= max_width)%Q)
  ∧ (∀ L, L ∈ lines → (max_width < text_length L fontsize)%Q →
          Py.split L = [L] ∧ L ∈ Py.split text)
  ∧ (monotone_width text_length fontsize →
     ∀ w, w ∈ Py.split text → (max_width < text_length w fontsize)%Q →
          w ∈ lines).
Proof.
  intros lines.
  pose proof (wrap_lines_ok text_length fontsize max_width (Py.split text))
    as Hok. rewrite Forall_forall in Hok.
  split; [|split].
  - intros L HL Htwo. destruct (Hok L HL) as [Hword|Hfit]; [|done].
    apply split_word_fixpoint in Hword as [Hsplit _].
    rewrite Hsplit in Htwo. simpl in Htwo. lia.
  - intros L HL Hwide. destruct (Hok L HL) as [Hword|Hfit].
    + split; [|done]. by apply split_word_fixpoint in Hword as [Hsplit _].
    + by apply Qlt_not_le in Hwide.
  - intros Hmono w Hw Hwide. apply wide_word_emitted; try done.
    by apply split_word_fixpoint in Hw as [_ Hne].
Qed.

Lemma wrap_exceeds_only_single_word_witness :
  monotone_width Sample.fixed_pitch 8
  ∧ "counterintuitively-long" ∈
      wrap_lines Sample.fixed_pitch 8 90
        (Py.split "a counterintuitively-long word").
Proof.
  split; [by apply fixed_pitch_monotone|].
  apply (proj2 (proj2 (wrap_exceeds_only_single_word Sample.fixed_pitch 8 90
                         "a counterintuitively-long word"))).
  - by apply fixed_pitch_monotone.
  - apply list_elem_of_In. vm_compute. tauto.
  - reflexivity.
Defined.

(** ** Clipping of the wrapped comment *)

Section DrawFacts.
Context (x y line_height y_limit fontsize : Q) (color : Color)
        (fontname : string).

Local Abbreviation fits := (fits y line_height y_limit).
Local Abbreviation text_ink :=
  (text_ink x y line_height fontsize color fontname).

Lemma gt_false a b : Py.gt a b = false ↔ (a <= b)%Q.
Proof.
  unfold Py.gt. rewrite negb_false_iff. apply Qle_bool_iff.
Qed.

Lemma gt_true a b : Py.gt a b = true ↔ (b < a)%Q.
Proof.
  unfold Py.gt. rewrite negb_true_iff. split.
  - intros Hf. apply Qnot_le_lt. intros Hle%Qle_bool_iff. congruence.
  - intros Hlt. apply not_true_is_false. intros Hle%Qle_bool_iff.
    by apply Qlt_not_le in Hlt.
Qed.

Lemma y_pos_mono i j :
  (0 <= line_height)%Q → (i ≤ j)%nat →
  (y_pos y line_height i <= y_pos y line_height j)%Q.
Proof.
  intros Hlh Hij. unfold y_pos. apply Qplus_le_r.
  apply Qmult_le_compat_r; [|done]. rewrite <- Zle_Qle. lia.
Qed.

Lemma fits_down i j : (0 <= line_height)%Q → (i ≤ j)%nat → fits j → fits i.
Proof.
  intros Hlh Hij Hj. unfold fits in *. eapply Qle_trans; [|exact Hj].
  apply Qplus_le_l. by apply y_pos_mono.
Qed.

(** The loop draws the lines before the first that does not fit. *)
Lemma draw_lines_spec lines : ∀ page i,
  let '(page', inserted, broke) :=
    draw_lines page x y line_height y_limit fontsize color fontname i lines in
  (inserted ≤ length lines)%nat
  ∧ page_ink page'
    = page_ink page ++ imap (λ j, text_ink (i + j)) (take inserted lines)
  ∧ (∀ j, (j < inserted)%nat → fits (i + j))
  ∧ (if broke then (inserted < length lines)%nat ∧ ¬ fits (i + inserted)
     else inserted = length lines).
Proof.
  induction lines as [|line rest IH]; intros page i; simpl.
  - rewrite app_nil_r. repeat split; auto; lia.
  - destruct (Py.gt _ y_limit) eqn:Hgt.
    + simpl. rewrite app_nil_r, Nat.add_0_r.
      repeat split; auto; try lia.
      apply gt_true in Hgt. unfold fits. by apply Qlt_not_le.
    + apply gt_false in Hgt.
      specialize (IH (draw (InkText x (y_pos y line_height i) line fontsize
                                    color fontname) page) (S i)).
      destruct (draw_lines _ _ _ _ _ _ _ _ _ rest) as [[page' inserted] broke].
      destruct IH as (Hle & Hink & Hfit & Hbroke). simpl in *.
      split; [lia|]. split; [|split].
      * rewrite Hink, <- app_assoc. simpl. rewrite Nat.add_0_r.
        do 2 f_equal. apply imap_ext. intros j l _. simpl.
        by rewrite Nat.add_succ_r.
      * intros [|j] Hj; [by rewrite Nat.add_0_r|].
        rewrite Nat.add_succ_r. apply Hfit. lia.
      * destruct broke.
        -- destruct Hbroke as [Hlt Hno]. split; [lia|].
           by rewrite Nat.add_succ_r.
        -- by rewrite Hbroke.
Qed.
End DrawFacts.

(** C5. [insert_wrapped_text] draws wrapped lines top-down, line [i] at
    [y + i * line_height]; every line drawn has its bottom edge
    [y_pos + line_height] at most [y_limit]; the lines drawn are the lines
    before the first whose bottom edge exceeds [y_limit], where the loop
    stops with the truncation warning; and with a line height that is not
    negative every line whose bottom edge is within [y_limit] is drawn. *)
Theorem wrapped_text_clipped {T : Toolkit} (page : Page) (x y : Q) (text : PyVal)
    (max_width fontsize : Q) (color : Color) (fontname : string)
    (y_limit : Q) :
  let line_height := (fontsize + 2)%Q in
  let res := insert_wrapped_text page x y text max_width fontsize color
                                 fontname y_limit in
  ∃ drawn : list string,
    page_ink res.1
    = page_ink page
      ++ imap (text_ink x y line_height fontsize color fontname) drawn
    ∧ (∀ i, (i < length drawn)%nat → fits y line_height y_limit i)
    ∧ (∀ text_length s,
         font fontname = Some text_length → text = VStr s →
         let lines :=
           wrap_lines text_length fontsize max_width (Py.split s) in
         drawn = take (length drawn) lines
         ∧ (length drawn ≤ length lines)%nat
         ∧ ((length drawn < length lines)%nat →
            ¬ fits y line_height y_limit (length drawn)
            ∧ res.2 = [LogTruncated y_limit;
                       LogWrapped (length drawn) (length lines)])
         ∧ (length drawn = length lines →
            res.2 = [LogWrapped (length drawn) (length lines)])
         ∧ ((0 <= line_height)%Q →
            ∀ i, (i < length lines)%nat → fits y line_height y_limit i →
                 (i < length drawn)%nat)).
Proof.
  intros line_height res. subst res. unfold insert_wrapped_text.
  destruct (font fontname) as [text_length|] eqn:Hfont;
    [destruct text as [s| |]|];
    try (exists []; simpl; rewrite app_nil_r;
         split; [done|]; split; [intros; lia|]; intros; congruence).
  set (lines := wrap_lines text_length fontsize max_width (Py.split s)).
  pose proof (draw_lines_spec x y line_height y_limit fontsize color fontname
                lines page 0) as Hspec.
  fold line_height.
  destruct (draw_lines _ _ _ _ _ _ _ _ _ lines) as [[page' inserted] broke].
  destruct Hspec as (Hle & Hink & Hfit & Hbroke). simpl in *.
  assert (length (take inserted lines) = inserted) as Hlen
    by (rewrite length_take; lia).
  exists (take inserted lines). rewrite Hlen.
  split; [done|]. split; [done|].
  intros tl s' [= <-] [= <-]. fold lines.
  split; [done|]. split; [done|]. split; [|split].
  - intros Hlt. destruct broke; [|lia]. by destruct Hbroke.
  - intros Heq. destruct broke; [|done]. destruct Hbroke. lia.
  - intros Hlh i Hi Hfits. destruct broke; [|lia].
    destruct Hbroke as [_ Hno]. destruct (decide (i < inserted)%nat); [done|].
    exfalso. apply Hno.
    apply (fits_down y line_height y_limit inserted i); [done|lia|done].
Qed.

Lemma wrapped_text_clipped_witness :
  let res := insert_wrapped_text (T := Sample.toolkit) (Sample.page []) 510 100
               (VStr Sample.nine_words) 90 8 red "helv" 120 in
  font (Toolkit := Sample.toolkit) "helv" = Some Sample.fixed_pitch
  ∧ (0 <= 8 + 2)%Q
  ∧ ∃ drawn, length drawn = 2%nat
      ∧ page_ink res.1 = imap (text_ink 510 100 (8 + 2) 8 red "helv") drawn
      ∧ res.2 = [LogTruncated 120; LogWrapped 2 3].
Proof.
  intros res. split; [reflexivity|]. split; [discriminate|].
  destruct (wrapped_text_clipped (T := Sample.toolkit) (Sample.page []) 510 100
              (VStr Sample.nine_words) 90 8 red "helv" 120)
    as (drawn & Hink & Hfit & Hstr).
  destruct (Hstr Sample.fixed_pitch Sample.nine_words eq_refl eq_refl)
    as (_ & Hle & Htrunc & _ & Hall).
  assert (length drawn = 2%nat) as Hlen.
  { assert (1 < length drawn)%nat as H1
      by (apply Hall; [discriminate|vm_compute; lia|discriminate]).
    destruct (decide (2 < length drawn)%nat) as [H2|H2]; [|lia].
    apply Hfit in H2. exfalso. apply H2. reflexivity. }
  exists drawn. split; [done|]. split; [exact Hink|].
  rewrite Hlen in Htrunc. apply Htrunc. vm_compute. lia.
Defined.

(** ** The tick pass: the pointer only moves forward *)

Section ForwardOnly.
Context {T : Toolkit}.

Lemma probe_from_weaken pn pn' e :
  (pn ≤ pn')%nat → probe_from pn' e → probe_from pn e.
Proof. destruct e; simpl; auto; lia. Qed.

Lemma quiet_probe pn e : quiet e → probe_from pn e.
Proof. by destruct e. Qed.

Lemma forward_from_probes p pn ev :
  (p ≤ pn)%nat → Forall (probe_from pn) ev →
  forward_from p ev ∧ last_match p ev = p.
Proof.
  intros Hp Hev. induction Hev as [|e ev He _ IH]; [done|].
  destruct e; simpl in *; try done. split; [|apply IH].
  split; [lia|apply IH].
Qed.

Lemma forward_from_app p a b :
  forward_from p (a ++ b)
  ↔ forward_from p a ∧ forward_from (last_match p a) b.
Proof.
  revert p. induction a as [|e a IH]; intros p; simpl; [tauto|].
  destruct e; simpl; rewrite ?IH; tauto.
Qed.

Lemma last_match_app p a b :
  last_match p (a ++ b) = last_match (last_match p a) b.
Proof. apply foldl_app. Qed.

Lemma forward_from_search p trace : ∀ i j t n q r m,
  forward_from p trace → (i < j)%nat →
  trace !! i = Some (LogMatch t n q) → trace !! j = Some (Search r m) →
  (q ≤ r)%nat.
Proof.
  revert p. induction trace as [|e trace IH]; intros p i j t n q r m Hf Hij Hi Hj;
    [done|].
  destruct j as [|j]; [lia|]. destruct i as [|i]; simpl in *.
  - injection Hi as ->. destruct Hf as [_ Hf]. clear IH Hij.
    revert q Hf j Hj. induction trace as [|e trace IH]; intros q Hf j Hj;
      [done|].
    destruct j as [|j]; simpl in *.
    + injection Hj as ->. by destruct Hf.
    + destruct e; simpl in *; try (by eapply IH).
      * destruct Hf as [_ Hf]. by eapply IH.
      * destruct Hf as [Hq Hf]. etrans; [exact Hq|]. by eapply IH.
  - destruct e; simpl in *;
      try (eapply (IH p i j); eauto; lia).
    + destruct Hf as [_ Hf]. eapply (IH p i j); eauto; lia.
    + destruct Hf as [_ Hf]. eapply (IH _ i j); eauto; lia.
Qed.

Lemma forward_from_match p trace : ∀ i j t n q t' n' q',
  forward_from p trace → (i < j)%nat →
  trace !! i = Some (LogMatch t n q) →
  trace !! j = Some (LogMatch t' n' q') → (q ≤ q')%nat.
Proof.
  revert p. induction trace as [|e trace IH];
    intros p i j t n q t' n' q' Hf Hij Hi Hj; [done|].
  destruct j as [|j]; [lia|]. destruct i as [|i]; simpl in *.
  - injection Hi as ->. destruct Hf as [_ Hf]. clear IH Hij.
    revert q Hf j Hj. induction trace as [|e trace IH]; intros q Hf j Hj;
      [done|].
    destruct j as [|j]; simpl in *.
    + injection Hj as ->. by destruct Hf.
    + destruct e; simpl in *; try (by eapply IH).
      * destruct Hf as [_ Hf]. by eapply IH.
      * destruct Hf as [Hq Hf]. etrans; [exact Hq|]. by eapply IH.
  - destruct e; simpl in *;
      try (eapply (IH p i j); eauto; lia).
    + destruct Hf as [_ Hf]. eapply (IH p i j); eauto; lia.
    + destruct Hf as [_ Hf]. eapply (IH _ i j); eauto; lia.
Qed.
End ForwardOnly.

(** ** The tiers of the locator *)

Section Tiers.
Context {T : Toolkit}.

Lemma lookahead_probes text : ∀ pages i,
  Forall (probe_from i) (lookahead text i pages).1.
Proof.
  induction pages as [|page rest IH]; intros i; simpl; [constructor|].
  destruct (search_for page text); [|repeat constructor; simpl; lia].
  specialize (IH (S i)). destruct (lookahead text (S i) rest) as [ev r].
  simpl in *. constructor; [simpl; lia|].
  eapply Forall_impl; [exact IH|]. intros e. apply probe_from_weaken. lia.
Qed.

Lemma lookahead_found text : ∀ pages i p inst,
  (lookahead text i pages).2 = Some (p, inst) →
  (i ≤ p)%nat ∧ ∃ page, pages !! (p - i)%nat = Some page
                        ∧ head (search_for page text) = Some inst.
Proof.
  induction pages as [|page rest IH]; intros i p inst; simpl; [done|].
  destruct (search_for page text) as [|r rs] eqn:Hs.
  - specialize (IH (S i) p inst).
    destruct (lookahead text (S i) rest) as [ev r']. simpl in *.
    intros Hr. destruct (IH Hr) as (Hle & pg & Hpg & Hhd).
    split; [lia|]. exists pg. split; [|done].
    replace (p - i)%nat with (S (p - S i)) by lia. done.
  - simpl. intros [= Hp Hinst]. subst p inst. split; [lia|]. exists page.
    rewrite Nat.sub_diag, Hs. done.
Qed.

Lemma lookahead_none text : ∀ pages i,
  (∀ j page, pages !! j = Some page → search_for page text = []) →
  lookahead text i pages = (imap (λ j _, Search (i + j) text) pages, None).
Proof.
  induction pages as [|page rest IH]; intros i Hno; simpl; [done|].
  rewrite (Hno 0%nat page eq_refl).
  rewrite (IH (S i)) by (intros j pg Hj; by apply (Hno (S j))).
  rewrite Nat.add_0_r. do 2 f_equal. apply imap_ext. intros j pg _. simpl.
  f_equal. lia.
Qed.

Lemma token_hits_cons page word words :
  token_hits page (word :: words)
  = match search_for page word with
    | inst :: _ => inst :: token_hits page words
    | [] => token_hits page words
    end.
Proof. unfold token_hits. simpl. by destruct (search_for page word). Qed.

Lemma word_scan_cons fb p word rest hits :
  word_scan fb p (word :: rest) hits
  = let hits' := match search_for fb word with
                 | inst :: _ => hits ++ [inst] | [] => hits end in
    if (4 <=? length hits')%nat then ([Search p word], head hits')
    else let '(ev, r) := word_scan fb p rest hits' in
         (Search p word :: ev, r).
Proof. done. Qed.

Lemma word_scan_probes fb p : ∀ words hits,
  Forall (probe_from p) (word_scan fb p words hits).1.
Proof.
  induction words as [|word rest IH]; intros hits; [constructor|].
  rewrite word_scan_cons.
  set (hits' := match search_for fb word with
                | inst :: _ => hits ++ [inst] | [] => hits end).
  cbv zeta. destruct (4 <=? length hits')%nat.
  { simpl. constructor; [simpl; lia|constructor]. }
  specialize (IH hits'). destruct (word_scan fb p rest hits') as [ev r].
  simpl in *. constructor; [simpl; lia|done].
Qed.

(** Fewer than four hits in all: every word is searched, no match. *)
Lemma word_scan_none fb p : ∀ words hits,
  (length (hits ++ token_hits fb words) < 4)%nat →
  word_scan fb p words hits = (Search p <$> words, None).
Proof.
  induction words as [|word rest IH]; intros hits Hlen; [done|].
  rewrite word_scan_cons. rewrite token_hits_cons in Hlen.
  set (hits' := match search_for fb word with
                | inst :: _ => hits ++ [inst] | [] => hits end).
  cbv zeta.
  assert (hits ++ match search_for fb word with
                  | inst :: _ => inst :: token_hits fb rest
                  | [] => token_hits fb rest end
          = hits' ++ token_hits fb rest) as Heq
    by (subst hits'; destruct (search_for fb word); [done|];
        by rewrite <- app_assoc).
  rewrite Heq in Hlen.
  destruct (4 <=? length hits')%nat eqn:Hfour.
  - apply Nat.leb_le in Hfour. rewrite length_app in Hlen. lia.
  - by rewrite (IH hits' Hlen).
Qed.

(** Four hits or more: the scan stops at the word that gives the fourth
    hit, and returns the first hit. *)
Lemma word_scan_some fb p : ∀ words hits,
  (length hits < 4)%nat →
  (4 ≤ length (hits ++ token_hits fb words))%nat →
  ∃ k, (k < length words)%nat
       ∧ length (hits ++ token_hits fb (take k words)) = 3%nat
       ∧ length (hits ++ token_hits fb (take (S k) words)) = 4%nat
       ∧ word_scan fb p words hits
         = (Search p <$> take (S k) words,
            head (hits ++ token_hits fb words)).
Proof.
  induction words as [|word rest IH]; intros hits Hlt Hfour.
  { simpl in Hfour. rewrite app_nil_r in Hfour. lia. }
  rewrite word_scan_cons. rewrite token_hits_cons in Hfour |- *.
  destruct (search_for fb word) as [|inst insts] eqn:Hs; cbv zeta.
  - replace (4 <=? length hits)%nat with false
      by (symmetry; apply Nat.leb_gt; lia).
    destruct (IH hits Hlt Hfour) as (k & Hk & H3 & H4 & Hscan).
    exists (S k). split; [simpl; lia|].
    rewrite !firstn_cons, !token_hits_cons, Hs.
    split; [done|]. split; [done|]. by rewrite Hscan.
  - destruct (4 <=? length (hits ++ [inst]))%nat eqn:Hnow.
    + apply Nat.leb_le in Hnow. rewrite length_app in Hnow. simpl in Hnow.
      exists 0%nat. split; [simpl; lia|].
      rewrite firstn_cons, token_hits_cons, Hs. simpl.
      rewrite app_nil_r. split; [lia|].
      split; [rewrite length_app; simpl; lia|].
      f_equal. destruct hits; simpl in *; [lia|done].
    + apply Nat.leb_gt in Hnow.
      assert (hits ++ inst :: token_hits fb rest
              = (hits ++ [inst]) ++ token_hits fb rest) as Heq
        by (by rewrite <- app_assoc).
      rewrite Heq in Hfour.
      destruct (IH (hits ++ [inst]) Hnow Hfour) as (k & Hk & H3 & H4 & Hscan).
      exists (S k). split; [simpl; lia|].
      rewrite !firstn_cons, !token_hits_cons, Hs.
      rewrite <- !app_assoc in H3, H4. simpl in H3, H4.
      split; [done|]. split; [done|]. rewrite Hscan. by rewrite Heq.
Qed.
End Tiers.

Section LocateFacts.
Context {T : Toolkit}.

Lemma fallback_probes doc text pn : ∀ cands,
  Forall (λ c, (pn ≤ c)%nat) cands →
  Forall (probe_from pn) (fallback doc text cands).1.
Proof.
  induction cands as [|c cands IH]; intros Hc; simpl; [constructor|].
  inversion Hc as [|?? Hpn Hrest]; subst.
  destruct (doc !! c) as [fb|]; [|by apply IH].
  pose proof (word_scan_probes fb c (Py.findall_words text) []) as Hw.
  destruct (word_scan fb c _ []) as [ev r]. simpl in Hw.
  assert (Forall (probe_from pn) ev) as Hev
    by (eapply Forall_impl; [exact Hw|];
        intros e; by apply probe_from_weaken).
  destruct r as [inst|]; simpl; [by constructor|].
  specialize (IH Hrest). destruct (fallback doc text cands) as [ev' r'].
  simpl in *. constructor; [done|]. by apply Forall_app.
Qed.

Lemma fallback_found doc text : ∀ cands p inst,
  (fallback doc text cands).2 = Some (p, inst) → p ∈ cands.
Proof.
  induction cands as [|c cands IH]; intros p inst; simpl; [done|].
  destruct (doc !! c) as [fb|].
  - destruct (word_scan fb c _ []) as [ev [r|]]; simpl.
    + intros [= Hp _]. subst. apply list_elem_of_here.
    + specialize (IH p inst). destruct (fallback doc text cands) as [ev' r'].
      simpl in *. intros Hr. apply list_elem_of_further. by apply IH.
  - intros Hr. apply list_elem_of_further. by eapply IH.
Qed.

Lemma word_scan_result fb p words :
  (word_scan fb p words []).2
  = if (4 <=? length (token_hits fb words))%nat
    then head (token_hits fb words) else None.
Proof.
  destruct (4 <=? length (token_hits fb words))%nat eqn:Hfour.
  - apply Nat.leb_le in Hfour.
    destruct (word_scan_some fb p words []) as (k & _ & _ & _ & ->);
      simpl; [lia|done|done].
  - apply Nat.leb_gt in Hfour. by rewrite word_scan_none.
Qed.

Lemma fallback_step doc text c cands :
  (fallback doc text (c :: cands)).2
  = match doc !! c ≫= (λ page, fallback_on c page text) with
    | Some r => Some r
    | None => (fallback doc text cands).2
    end.
Proof.
  change (fallback doc text (c :: cands))
    with (match doc !! c with
          | None => fallback doc text cands
          | Some fb_page =>
              let '(ev, r) :=
                word_scan fb_page c (Py.findall_words text) [] in
              match r with
              | Some inst => (LogFallbackTry text c :: ev, Some (c, inst))
              | None =>
                  let '(ev', r') := fallback doc text cands in
                  (LogFallbackTry text c :: ev ++ ev', r')
              end
          end).
  destruct (doc !! c) as [page|]; [|done].
  change (Some page ≫= (λ page, fallback_on c page text))
    with (fallback_on c page text).
  unfold fallback_on.
  set (words := Py.findall_words text).
  pose proof (word_scan_result page c words) as Hw.
  destruct (word_scan page c words []) as [ev r]. cbn [snd] in Hw. subst r.
  destruct (4 <=? length (token_hits page words))%nat eqn:Hfour.
  - apply Nat.leb_le in Hfour.
    destruct (token_hits page words) as [|h hs]; [simpl in Hfour; lia|done].
  - by destruct (fallback doc text cands).
Qed.

(** The fallback tier tries the current page, then the next. *)
Lemma fallback_result doc text pn :
  (fallback doc text [pn; S pn]).2
  = match doc !! pn ≫= (λ page, fallback_on pn page text) with
    | Some r => Some r
    | None => doc !! S pn ≫= (λ page, fallback_on (S pn) page text)
    end.
Proof.
  rewrite !fallback_step.
  destruct (doc !! pn ≫= _); [done|].
  by destruct (doc !! S pn ≫= _).
Qed.

Lemma locate_probes doc pn page text :
  Forall (probe_from pn) (locate doc pn page text).1.
Proof.
  unfold locate. destruct (search_for page text).
  - pose proof (lookahead_probes text (drop (S pn) doc) (S pn)) as H2.
    destruct (lookahead text (S pn) _) as [ev2 r2]. simpl in H2.
    assert (Forall (probe_from pn) ev2) as Hev2
      by (eapply Forall_impl; [exact H2|];
          intros e; apply probe_from_weaken; lia).
    destruct r2 as [[p inst]|]; [constructor; [simpl; lia|done]|].
    pose proof (fallback_probes doc text pn [pn; S pn]) as H3.
    destruct (fallback doc text _) as [ev3 r3]. cbn [fst] in *.
    constructor; [simpl; lia|]. apply Forall_app. split; [done|].
    apply H3. repeat constructor; lia.
  - constructor; [simpl; lia|constructor].
Qed.

Lemma locate_page doc pn page text t p inst :
  (locate doc pn page text).2 = Some (t, p, inst) → (pn ≤ p)%nat.
Proof.
  unfold locate. destruct (search_for page text).
  - pose proof (lookahead_found text (drop (S pn) doc) (S pn)) as H2.
    destruct (lookahead text (S pn) _) as [ev2 r2]. simpl in H2.
    destruct r2 as [[p' inst']|]; cbn [snd].
    + intros [= _ Hp _]. subst. destruct (H2 p inst' eq_refl). lia.
    + pose proof (fallback_found doc text [pn; S pn]) as H3.
      destruct (fallback doc text _) as [ev3 [[p' inst']|]]; cbn [snd] in *;
        [|done].
      intros [= _ Hp _]. subst.
      specialize (H3 p inst' eq_refl).
      apply elem_of_cons in H3 as [->|H3]; [lia|].
      apply list_elem_of_singleton in H3 as ->. lia.
  - simpl. intros [= _ Hp _]. lia.
Qed.

Lemma mark_match_quiet doc placed p inst :
  Forall quiet (mark_match doc placed p inst).2.
Proof.
  unfold mark_match. destruct (decide _); [constructor|].
  destruct (doc !! p) as [page|]; [|constructor].
  unfold insert_tick. destruct (decide _); simpl; by repeat constructor.
Qed.

Lemma logged_again_forward t text p :
  forward_from p (logged_again t text p)
  ∧ last_match p (logged_again t text p) = p.
Proof. destruct t; simpl; auto. Qed.

(** One turn keeps the trace forward-only and never moves the pointer
    back. *)
Lemma process_line_forward p0 st page idx line :
  forward_from p0 (ts_trace st) →
  (last_match p0 (ts_trace st) ≤ ts_page_num st)%nat →
  let st' := process_line st page idx line in
  forward_from p0 (ts_trace st')
  ∧ (last_match p0 (ts_trace st') ≤ ts_page_num st')%nat
  ∧ (ts_page_num st ≤ ts_page_num st')%nat.
Proof.
  intros Hf Hl. unfold process_line.
  destruct (Py.truthy _); simpl.
  2:{ rewrite forward_from_app, last_match_app. simpl. done. }
  pose proof (locate_probes (ts_doc st) (ts_page_num st) page
                (Py.strip (Py.slice_to 50 line))) as Hev.
  pose proof (locate_page (ts_doc st) (ts_page_num st) page
                (Py.strip (Py.slice_to 50 line))) as Hpage.
  destruct (locate _ _ _ _) as [ev r]. simpl in Hev, Hpage.
  destruct (forward_from_probes _ _ ev Hl Hev) as [Hfev Hlev].
  destruct r as [[[t p] inst]|].
  - specialize (Hpage t p inst eq_refl).
    pose proof (mark_match_quiet (ts_doc st) (ts_ticks st) p inst) as Hq.
    destruct (mark_match _ _ _ _) as [[doc' placed'] ev']. simpl in *.
    assert (Forall (probe_from p) ev') as Hq'
      by (eapply Forall_impl; [exact Hq|]; intros e; apply quiet_probe).
    destruct (forward_from_probes p p ev' (le_n _) Hq') as [Hfev' Hlev'].
    destruct (logged_again_forward t (Py.strip (Py.slice_to 50 line)) p)
      as [Hfa Hla].
    rewrite !forward_from_app, !last_match_app, Hlev. simpl.
    rewrite forward_from_app, last_match_app, Hlev', Hla.
    repeat split; try done; lia.
  - simpl. rewrite !forward_from_app, !last_match_app, Hlev. simpl. done.
Qed.

Lemma tick_loop_forward p0 : ∀ lines st idx,
  forward_from p0 (ts_trace st) →
  (last_match p0 (ts_trace st) ≤ ts_page_num st)%nat →
  let st' := tick_loop st idx lines in
  forward_from p0 (ts_trace st')
  ∧ (ts_page_num st ≤ ts_page_num st')%nat.
Proof.
  induction lines as [|line rest IH]; intros st idx Hf Hl; simpl; [done|].
  destruct (ts_doc st !! ts_page_num st) as [page|]; [|done].
  destruct (process_line_forward p0 st page idx line Hf Hl)
    as (Hf' & Hl' & Hmono).
  destruct (IH _ (S idx) Hf' Hl') as [Hf'' Hmono'].
  split; [done|]. simpl in *. lia.
Qed.

(** The pointer never decreases, from any state of the loop. *)
Lemma process_line_pointer st page idx line :
  (ts_page_num st ≤ ts_page_num (process_line st page idx line))%nat.
Proof.
  unfold process_line. destruct (Py.truthy _); simpl; [|done].
  pose proof (locate_page (ts_doc st) (ts_page_num st) page
                (Py.strip (Py.slice_to 50 line))) as Hpage.
  destruct (locate _ _ _ _) as [ev [[[t p] inst]|]]; [|done].
  destruct (mark_match _ _ _ _) as [[doc' placed'] ev']. simpl in *.
  by eapply Hpage.
Qed.

Lemma tick_loop_pointer : ∀ lines st idx,
  (ts_page_num st ≤ ts_page_num (tick_loop st idx lines))%nat.
Proof.
  induction lines as [|line rest IH]; intros st idx; simpl; [done|].
  destruct (ts_doc st !! ts_page_num st) as [page|]; [|done].
  etrans; [apply (process_line_pointer st page idx line)|apply IH].
Qed.

(** A line with no verbatim hit from the pointer on, and fewer than four
    word hits on each candidate page, is left unmatched: nothing is drawn
    and the pointer stays. *)
Lemma process_line_unmatched st page idx line :
  let text := Py.strip (Py.slice_to 50 line) in
  ts_doc st !! ts_page_num st = Some page →
  Py.truthy text = true →
  no_exact_from (ts_doc st) (ts_page_num st) text →
  few_hits_on (ts_doc st) (ts_page_num st) text →
  few_hits_on (ts_doc st) (S (ts_page_num st)) text →
  ∃ ev, Forall (probe_from (ts_page_num st)) ev
        ∧ process_line st page idx line
          = mkTickState (ts_doc st) (ts_ticks st) (ts_page_num st)
              (ts_trace st ++ ev ++ [LogUnmatched (S idx)]).
Proof.
  intros text Hpage Hne Hexact Hfew0 Hfew1. unfold process_line.
  fold text. rewrite Hne. simpl.
  pose proof (locate_probes (ts_doc st) (ts_page_num st) page text) as Hev.
  assert ((locate (ts_doc st) (ts_page_num st) page text).2 = None) as Hr.
  { unfold locate.
    rewrite (Hexact (ts_page_num st) page (le_n _) Hpage).
    rewrite lookahead_none.
    2:{ intros j pg Hj. rewrite lookup_drop in Hj.
        eapply Hexact; [|exact Hj]. lia. }
    pose proof (fallback_result (ts_doc st) text (ts_page_num st)) as Hfb.
    destruct (fallback _ _ _) as [ev3 r3]. cbn [snd] in *.
    rewrite Hfb, Hpage. cbn [mbind option_bind]. unfold fallback_on.
    rewrite (proj2 (Nat.leb_gt _ _) (Hfew0 page Hpage)).
    destruct (ts_doc st !! S (ts_page_num st)) as [page1|] eqn:H1;
      cbn [mbind option_bind]; [|done].
    rewrite (proj2 (Nat.leb_gt _ _) (Hfew1 page1 H1)). done. }
  destruct (locate _ _ _ _) as [ev r]. simpl in *. subst r.
  exists ev. done.
Qed.
End LocateFacts.

(** C1. In the tick pass the pointer never moves back: in the trace of
    [annotate_correct_lines], a search that follows a match on page [p],
    whether by an exact tier or by the fallback tier, is on a page [q]
    with [p <= q], the pages of successive matches never decrease, and
    the pointer never decreases over any stretch of the loop. A
    line with no verbatim hit on a page from the pointer on and fewer than
    four word hits on the two fallback pages ends unmatched, whatever the
    pages before the pointer hold: nothing is drawn, the registry and the
    pointer are unchanged. *)
Theorem pointer_forward_only {T : Toolkit} (doc : list Page)
    (correct_lines : list PyVal) (st : TickState) :
  annotate_correct_lines doc correct_lines = Some st →
  (∀ i j t n p q m,
     (i < j)%nat → ts_trace st !! i = Some (LogMatch t n p) →
     ts_trace st !! j = Some (Search q m) → (p ≤ q)%nat)
  ∧ (∀ i j t n p t' n' p',
       (i < j)%nat → ts_trace st !! i = Some (LogMatch t n p) →
       ts_trace st !! j = Some (LogMatch t' n' p') → (p ≤ p')%nat)
  ∧ (∀ st0 line_index lines,
       (ts_page_num st0 ≤ ts_page_num (tick_loop st0 line_index lines))%nat)
  ∧ (∀ st0 page line_index line,
       let text := Py.strip (Py.slice_to 50 line) in
       ts_doc st0 !! ts_page_num st0 = Some page →
       Py.truthy text = true →
       no_exact_from (ts_doc st0) (ts_page_num st0) text →
       few_hits_on (ts_doc st0) (ts_page_num st0) text →
       few_hits_on (ts_doc st0) (S (ts_page_num st0)) text →
       ∃ ev, Forall (probe_from (ts_page_num st0)) ev
             ∧ process_line st0 page line_index line
               = mkTickState (ts_doc st0) (ts_ticks st0) (ts_page_num st0)
                   (ts_trace st0 ++ ev ++ [LogUnmatched (S line_index)])).
Proof.
  unfold annotate_correct_lines. intros Hrun.
  destruct (flatten_lines correct_lines) as [flat_lines|]; [|done].
  injection Hrun as <-.
  destruct (tick_loop_forward 0 flat_lines (mkTickState doc ∅ 0 []) 0)
    as [Hf _]; [done|simpl; lia|].
  split; [|split; [|split]].
  - intros i j t n p q m Hij Hi Hj.
    by eapply (forward_from_search 0 _ i j); eauto.
  - intros i j t n p t' n' p' Hij Hi Hj.
    by eapply (forward_from_match 0 _ i j); eauto.
  - intros st0 line_index lines. apply tick_loop_pointer.
  - intros st0 page line_index line. apply process_line_unmatched.
Qed.

Lemma pointer_forward_only_witness :
  let cells := [VStr "['net profit', 'gross margin']"] in
  let st1 := tick_loop (T := Sample.toolkit)
               (mkTickState Sample.doc3 ∅ 0 []) 0 ["net profit"] in
  ∃ st page,
    annotate_correct_lines (T := Sample.toolkit) Sample.doc3 cells = Some st
    ∧ ts_page_num st1 = 2%nat
    ∧ ts_doc st1 !! 2%nat = Some page
    ∧ ∃ ev, process_line (T := Sample.toolkit) st1 page 1 "gross margin"
            = mkTickState (ts_doc st1) (ts_ticks st1) 2
                (ts_trace st1 ++ ev ++ [LogUnmatched 2]).
Proof.
  intros cells st1.
  destruct (annotate_correct_lines (T := Sample.toolkit) Sample.doc3 cells)
    as [st|] eqn:Hrun; [|discriminate].
  assert (ts_page_num st1 = 2%nat) as Hpn by reflexivity.
  destruct (ts_doc st1 !! 2%nat) as [page|] eqn:Hpage; [|discriminate].
  exists st, page. split; [done|]. split; [done|]. split; [done|].
  destruct (pointer_forward_only (T := Sample.toolkit) Sample.doc3 cells st
              Hrun) as (_ & _ & _ & Hline).
  destruct (Hline st1 page 1%nat "gross margin") as (ev & _ & Hev).
  - by rewrite Hpn.
  - reflexivity.
  - intros q pg Hq Hlook. rewrite Hpn in Hq.
    destruct q as [|[|[|q]]]; try lia; [|discriminate].
    injection Hlook as <-. reflexivity.
  - intros pg Hlook. rewrite Hpn in Hlook. injection Hlook as <-.
    vm_compute. lia.
  - intros pg Hlook. rewrite Hpn in Hlook. discriminate.
  - exists ev. by rewrite Hpn in Hev.
Defined.

(** Lines ["net profit"; "gross margin"], the first on the third page only,
    the second on the first page only: the lookahead moves the pointer to
    the third page, the second line is searched there only and ends
    unmatched; the first page gets no tick. *)
Example forward_only_sample :
  let st := tick_loop (T := Sample.toolkit) (mkTickState Sample.doc3 ∅ 0 []) 0
              ["net profit"; "gross margin"] in
  ts_page_num st = 2%nat
  ∧ ts_trace st
    = [Search 0 "net profit"; Search 1 "net profit"; Search 2 "net profit";
       LogMatch Future "net profit" 2; LogTickInserted 47 310;
       Search 2 "gross margin"; LogFallbackTry "gross margin" 2;
       Search 2 "gross"; Search 2 "margin"; LogUnmatched 2]
  ∧ page_ink <$> ts_doc st = [[]; []; [InkTick 47 310]].
Proof. vm_compute. done. Qed.

(** ** The fallback tier *)

Section FallbackFacts.
Context {T : Toolkit}.

Lemma process_line_located st page idx line ev t p inst :
  let text := Py.strip (Py.slice_to 50 line) in
  Py.truthy text = true →
  locate (ts_doc st) (ts_page_num st) page text = (ev, Some (t, p, inst)) →
  process_line st page idx line = matched_state st t text p inst ev.
Proof.
  intros text Hne Hloc. unfold process_line, matched_state. fold text.
  rewrite Hne, Hloc. done.
Qed.

(** With no verbatim hit from the pointer on, the outcome of the three
    tiers is the outcome of the fallback tier. *)
Lemma locate_fallback doc pn page text :
  doc !! pn = Some page → no_exact_from doc pn text →
  (locate doc pn page text).2
  = (λ r : nat * Rect, (Fallback, r.1, r.2))
      <$> match fallback_on pn page text with
          | Some r => Some r
          | None => doc !! S pn ≫= (λ page1, fallback_on (S pn) page1 text)
          end.
Proof.
  intros Hpage Hexact. unfold locate.
  rewrite (Hexact pn page (le_n _) Hpage).
  rewrite lookahead_none.
  2:{ intros j pg Hj. rewrite lookup_drop in Hj.
      eapply Hexact; [|exact Hj]. lia. }
  pose proof (fallback_result doc text pn) as Hfb.
  destruct (fallback _ _ _) as [ev3 r3]. cbn [snd] in *.
  rewrite Hfb, Hpage. cbn [mbind option_bind].
  destruct (fallback_on pn page text) as [[p inst]|]; [done|].
  by destruct (doc !! S pn ≫= _) as [[p inst]|].
Qed.

Lemma fallback_on_hit q page text :
  (4 ≤ length (token_hits page (Py.findall_words text)))%nat →
  ∃ inst, head (token_hits page (Py.findall_words text)) = Some inst
          ∧ fallback_on q page text = Some (q, inst).
Proof.
  intros Hfour. unfold fallback_on.
  rewrite (proj2 (Nat.leb_le _ _) Hfour).
  destruct (token_hits page _) as [|inst hits]; [simpl in Hfour; lia|].
  by exists inst.
Qed.

Lemma fallback_on_miss q page text :
  (length (token_hits page (Py.findall_words text)) < 4)%nat →
  fallback_on q page text = None.
Proof.
  intros Hfew. unfold fallback_on.
  by rewrite (proj2 (Nat.leb_gt _ _) Hfew).
Qed.

(** A tick for a match whose keys are not in the registry. *)
Lemma mark_match_fresh doc placed p page inst :
  doc !! p = Some page →
  line_key inst ∉ placed → Py.round1 (y0 inst + 10)%Q ∉ placed →
  (mark_match doc placed p inst).1
  = (<[p := draw (tick_for inst) page]> doc,
     placed ∪ {[Py.round1 (y0 inst + 10)%Q]} ∪ {[line_key inst]}).
Proof.
  intros Hpage Hline Htick. unfold mark_match, insert_tick.
  rewrite decide_False by done. rewrite Hpage.
  rewrite decide_False by done. done.
Qed.
End FallbackFacts.

(** C2, as the code has it. For a line with no verbatim hit on a page from
    the pointer on, the fallback tier searches the word tokens of the
    50-character prefix in order on the current page, then on the next. It
    counts the tokens that have a hit, a word that occurs twice in the line
    counting twice: the scan of a page stops at the token that brings the
    count to four, and the match is anchored at the first hit; the tick is
    drawn for that box. With fewer than four token hits on both candidate
    pages nothing is drawn and the line is logged unmatched. *)
Theorem fallback_counts_token_hits {T : Toolkit} (st : TickState)
    (page : Page) (line_index : nat) (line : string) :
  let text := Py.strip (Py.slice_to 50 line) in
  let words := Py.findall_words text in
  let pn := ts_page_num st in
  ts_doc st !! pn = Some page →
  Py.truthy text = true →
  no_exact_from (ts_doc st) pn text →
  (∀ fb q, (4 ≤ length (token_hits fb words))%nat →
     ∃ k, (k < length words)%nat
          ∧ length (token_hits fb (take k words)) = 3%nat
          ∧ length (token_hits fb (take (S k) words)) = 4%nat
          ∧ word_scan fb q words []
            = (Search q <$> take (S k) words, head (token_hits fb words)))
  ∧ ((4 ≤ length (token_hits page words))%nat →
     ∃ inst ev, head (token_hits page words) = Some inst
       ∧ process_line st page line_index line
         = matched_state st Fallback text pn inst ev)
  ∧ ((length (token_hits page words) < 4)%nat →
     ∀ page1, ts_doc st !! S pn = Some page1 →
       (4 ≤ length (token_hits page1 words))%nat →
       ∃ inst ev, head (token_hits page1 words) = Some inst
         ∧ process_line st page line_index line
           = matched_state st Fallback text (S pn) inst ev)
  ∧ (∀ t p inst ev page_p,
       ts_doc st !! p = Some page_p →
       line_key inst ∉ ts_ticks st →
       Py.round1 (y0 inst + 10)%Q ∉ ts_ticks st →
       ts_doc (matched_state st t text p inst ev)
       = <[p := draw (tick_for inst) page_p]> (ts_doc st))
  ∧ (few_hits_on (ts_doc st) pn text →
     few_hits_on (ts_doc st) (S pn) text →
     ∃ ev, Forall (probe_from pn) ev
           ∧ process_line st page line_index line
             = mkTickState (ts_doc st) (ts_ticks st) pn
                 (ts_trace st ++ ev ++ [LogUnmatched (S line_index)])).
Proof.
  intros text words pn Hpage Hne Hexact.
  pose proof (locate_fallback (ts_doc st) pn page text Hpage Hexact) as Hloc.
  split; [|split; [|split; [|split]]].
  - intros fb q Hfour.
    destruct (word_scan_some fb q words []) as (k & Hk & H3 & H4 & Hscan);
      [simpl; lia|done|].
    exists k. done.
  - intros Hfour.
    destruct (fallback_on_hit pn page text Hfour) as (inst & Hhd & Hfb).
    rewrite Hfb in Hloc. simpl in Hloc.
    destruct (locate (ts_doc st) pn page text) as [ev r] eqn:Hl.
    simpl in Hloc. subst r. exists inst, ev. split; [done|].
    by apply process_line_located.
  - intros Hfew page1 Hpage1 Hfour.
    rewrite (fallback_on_miss pn page text Hfew), Hpage1 in Hloc.
    destruct (fallback_on_hit (S pn) page1 text Hfour) as (inst & Hhd & Hfb).
    cbn [mbind option_bind] in Hloc. rewrite Hfb in Hloc. simpl in Hloc.
    destruct (locate (ts_doc st) pn page text) as [ev r] eqn:Hl.
    simpl in Hloc. subst r. exists inst, ev. split; [done|].
    by apply process_line_located.
  - intros t p inst ev page_p Hp Hline Htick. unfold matched_state.
    pose proof (mark_match_fresh (ts_doc st) (ts_ticks st) p page_p inst
                  Hp Hline Htick) as Hm.
    destruct (mark_match _ _ _ _) as [[doc' placed'] ev']. simpl in *.
    by injection Hm as -> _.
  - intros Hfew0 Hfew1. by apply process_line_unmatched.
Qed.

Lemma fallback_counts_token_hits_witness :
  let st := mkTickState [Sample.words_page] ∅ 0 [] in
  let line := "alpha beta omega gamma delta sigma" in
  ∃ inst ev,
    head (token_hits (T := Sample.toolkit) Sample.words_page
            (Py.findall_words line)) = Some inst
    ∧ process_line (T := Sample.toolkit) st Sample.words_page 0 line
      = matched_state st Fallback line 0 inst ev.
Proof.
  intros st line.
  destruct (fallback_counts_token_hits (T := Sample.toolkit) st
              Sample.words_page 0 line) as (_ & Hhit & _).
  - reflexivity.
  - reflexivity.
  - intros q pg Hq Hlook. destruct q as [|q]; [|discriminate].
    injection Hlook as <-. reflexivity.
  - apply Hhit. vm_compute. lia.
Defined.

(** Four of six words found: a tick at the first found word; three of six:
    no tick, the line is logged unmatched. *)
Example fallback_threshold :
  let st := mkTickState [Sample.words_page] ∅ 0 [] in
  let four := process_line (T := Sample.toolkit) st Sample.words_page 0
                "alpha beta omega gamma delta sigma" in
  let three := process_line (T := Sample.toolkit) st Sample.words_page 0
                 "alpha beta omega gamma kappa sigma" in
  page_ink <$> ts_doc four = [[InkTick 47 110]]
  ∧ page_ink <$> ts_doc three = [[]]
  ∧ last (ts_trace three) = Some (LogUnmatched 1).
Proof. vm_compute. done. Qed.

(** C2 as stated fails: with three distinct words found, one of them twice
    in the line, the tier succeeds and a tick is placed. *)
Lemma fallback_distinct_words_counterexample :
  let st := mkTickState [Sample.words_page] ∅ 0 [] in
  let line := "alpha beta gamma alpha omega" in
  let st' := process_line (T := Sample.toolkit) st Sample.words_page 0 line in
  search_for (Toolkit := Sample.toolkit) Sample.words_page line = []
  ∧ length (distinct_found (T := Sample.toolkit) Sample.words_page
              (Py.findall_words line)) = 3%nat
  ∧ page_ink <$> ts_doc st' = [[InkTick 47 110]]
  ∧ LogMatch Fallback line 0 ∈ ts_trace st'.
Proof.
  vm_compute. repeat split.
  apply list_elem_of_In. simpl. tauto.
Qed.

(** ** The tick registry *)

Section Registry.
Context {T : Toolkit}.

Lemma adds_ticks_refl doc placed : adds_ticks doc placed doc placed [].
Proof.
  unfold adds_ticks. rewrite app_nil_r.
  split; [done|]. split; [constructor|]. split; [|done].
  intros y Hy. by apply elem_of_nil in Hy.
Qed.

Lemma adds_ticks_trans doc placed doc1 placed1 doc2 placed2 new1 new2 :
  adds_ticks doc placed doc1 placed1 new1 →
  adds_ticks doc1 placed1 doc2 placed2 new2 →
  adds_ticks doc placed doc2 placed2 (new1 ++ new2).
Proof.
  intros (Hp1 & Hn1 & Hk1 & Hs1) (Hp2 & Hn2 & Hk2 & Hs2).
  unfold adds_ticks. split; [|split; [|split]].
  - rewrite Hp2, Hp1. by rewrite <- app_assoc.
  - rewrite fmap_app. apply NoDup_app. split; [done|]. split; [|done].
    intros k Hin1 Hin2.
    apply list_elem_of_fmap in Hin1 as (y1 & -> & Hy1).
    apply list_elem_of_fmap in Hin2 as (y2 & Heq & Hy2).
    destruct (Hk1 y1 Hy1) as [_ Hin]. destruct (Hk2 y2 Hy2) as [Hout _].
    rewrite Heq in Hin. done.
  - intros y Hy. apply elem_of_app in Hy as [Hy|Hy].
    + destruct (Hk1 y Hy) as [Hout Hin]. split; [done|]. by apply Hs2.
    + destruct (Hk2 y Hy) as [Hout Hin]. split; [|done].
      intros Hin0. by apply Hout, Hs1.
  - by etrans.
Qed.

Lemma tick_ys_draw doc p page i :
  doc !! p = Some page →
  tick_ys (<[p := draw i page]> doc)
  ≡ₚ tick_ys doc ++ omap tick_of [i].
Proof.
  intros Hpage. unfold tick_ys.
  rewrite insert_take_drop by (by eapply lookup_lt_Some).
  rewrite <- (take_drop_middle doc p page Hpage) at 3.
  rewrite !bind_app, !bind_cons. simpl page_ink. rewrite omap_app.
  rewrite <- !app_assoc. apply Permutation_app_head.
  apply Permutation_app_head. apply Permutation_app_comm.
Qed.

(** A match whose key is in the registry draws nothing. *)
Lemma mark_match_present doc placed p inst :
  line_key inst ∈ placed → mark_match doc placed p inst = (doc, placed, []).
Proof. intros Hin. unfold mark_match. by rewrite decide_True. Qed.

Lemma mark_match_adds doc placed p inst :
  ∃ new, adds_ticks doc placed (mark_match doc placed p inst).1.1
                    (mark_match doc placed p inst).1.2 new.
Proof.
  unfold mark_match. destruct (decide (line_key inst ∈ placed)).
  { exists []. apply adds_ticks_refl. }
  destruct (doc !! p) as [page|] eqn:Hpage.
  2:{ exists []. apply adds_ticks_refl. }
  unfold insert_tick. destruct (decide (_ ∈ placed)) as [Hin|Hout]; simpl.
  - exists []. unfold adds_ticks. rewrite app_nil_r.
    rewrite list_insert_id by done.
    repeat split; try done; try constructor; try set_solver.
  - exists [(y0 inst + 10)%Q]. unfold adds_ticks. split; [|split; [|split]].
    + by apply tick_ys_draw.
    + simpl. apply NoDup_singleton.
    + intros y Hy. apply list_elem_of_singleton in Hy as ->. set_solver.
    + set_solver.
Qed.

Lemma process_line_adds st page idx line :
  let st' := process_line st page idx line in
  ∃ new, adds_ticks (ts_doc st) (ts_ticks st) (ts_doc st') (ts_ticks st') new.
Proof.
  unfold process_line. destruct (Py.truthy _); simpl.
  2:{ exists []. apply adds_ticks_refl. }
  destruct (locate _ _ _ _) as [ev [[[t p] inst]|]].
  - destruct (mark_match_adds (ts_doc st) (ts_ticks st) p inst) as [new Hn].
    destruct (mark_match _ _ _ _) as [[doc' placed'] ev']. by exists new.
  - exists []. apply adds_ticks_refl.
Qed.

Lemma tick_loop_adds : ∀ lines st idx,
  let st' := tick_loop st idx lines in
  ∃ new, adds_ticks (ts_doc st) (ts_ticks st) (ts_doc st') (ts_ticks st') new.
Proof.
  induction lines as [|line rest IH]; intros st idx; simpl.
  { exists []. apply adds_ticks_refl. }
  destruct (ts_doc st !! ts_page_num st) as [page|].
  2:{ exists []. apply adds_ticks_refl. }
  destruct (process_line_adds st page idx line) as [new1 H1].
  destruct (IH (process_line st page idx line) (S idx)) as [new2 H2].
  exists (new1 ++ new2). by eapply adds_ticks_trans.
Qed.
End Registry.

(** C3. Within one pass ticks are deduplicated by rounded height. A match
    whose key, the mid-height of its box rounded to one decimal, is in the
    registry draws nothing and changes nothing; the line still counts as
    matched: the pointer moves to the page of the match and the match is
    logged. From any state of the loop, the ticks a pass draws have rounded
    heights that differ from each other and from every key the registry
    held at the start, so no two ticks of one call of
    [annotate_correct_lines] are at the same rounded height. Processing
    the line list a second time within the pass, from the state the first
    processing left, places no duplicate: the ticks of both processings
    together have pairwise different rounded heights. *)
Theorem tick_dedup_within_pass {T : Toolkit} :
  (∀ doc placed p inst,
     line_key inst ∈ placed → mark_match doc placed p inst = (doc, placed, []))
  ∧ (∀ st page line_index line ev t p inst,
       let text := Py.strip (Py.slice_to 50 line) in
       Py.truthy text = true →
       locate (ts_doc st) (ts_page_num st) page text
       = (ev, Some (t, p, inst)) →
       line_key inst ∈ ts_ticks st →
       process_line st page line_index line
       = mkTickState (ts_doc st) (ts_ticks st) p
           (ts_trace st ++ ev ++ [LogMatch t text p]
            ++ logged_again t text p))
  ∧ (∀ st line_index lines,
       let st' := tick_loop st line_index lines in
       ∃ new, adds_ticks (ts_doc st) (ts_ticks st)
                         (ts_doc st') (ts_ticks st') new)
  ∧ (∀ doc correct_lines st,
       annotate_correct_lines doc correct_lines = Some st →
       ∃ new, tick_ys (ts_doc st) ≡ₚ (tick_ys doc ++ new)
              ∧ NoDup (Py.round1 <$> new)
              ∧ ∀ y, y ∈ new → Py.round1 y ∈ ts_ticks st)
  ∧ (∀ st line_index line_index' lines,
       let st1 := tick_loop st line_index lines in
       let st2 := tick_loop st1 line_index' lines in
       ∃ new1 new2,
         tick_ys (ts_doc st1) ≡ₚ (tick_ys (ts_doc st) ++ new1)
         ∧ tick_ys (ts_doc st2) ≡ₚ (tick_ys (ts_doc st) ++ new1 ++ new2)
         ∧ NoDup (Py.round1 <$> (new1 ++ new2))
         ∧ (∀ y, y ∈ new1 ++ new2 → Py.round1 y ∉ ts_ticks st)).
Proof.
  split; [|split; [|split; [|split]]].
  - intros doc placed p inst. apply mark_match_present.
  - intros st page line_index line ev t p inst text Hne Hloc Hkey.
    rewrite (process_line_located st page line_index line ev t p inst Hne Hloc).
    unfold matched_state. rewrite mark_match_present by done.
    fold text. done.
  - intros st line_index lines. apply tick_loop_adds.
  - intros doc correct_lines st. unfold annotate_correct_lines.
    destruct (flatten_lines correct_lines) as [flat_lines|]; [|done].
    intros [= <-].
    destruct (tick_loop_adds flat_lines (mkTickState doc ∅ 0 []) 0)
      as (new & Hperm & Hnodup & Hkeys & _).
    exists new. split; [done|]. split; [done|].
    intros y Hy. by destruct (Hkeys y Hy).
  - intros st line_index line_index' lines st1 st2.
    destruct (tick_loop_adds lines st line_index) as [new1 H1].
    destruct (tick_loop_adds lines st1 line_index') as [new2 H2].
    fold st1 in H1. fold st2 in H2.
    pose proof (adds_ticks_trans _ _ _ _ _ _ _ _ H1 H2)
      as (Hperm & Hnodup & Hkeys & _).
    destruct H1 as (Hperm1 & _).
    exists new1, new2. split; [done|]. split; [done|]. split; [done|].
    intros y Hy. by destruct (Hkeys y Hy).
Qed.

Lemma tick_dedup_within_pass_witness :
  let inst := mkRect 72 (752 # 100) 272 (1752 # 100) in
  line_key inst = 125
  ∧ mark_match [Sample.words_page] {[125]} 0 inst
    = ([Sample.words_page], {[125]}, [])
  ∧ page_ink <$> ts_doc (tick_loop (T := Sample.toolkit)
                           (mkTickState Sample.doc3 ∅ 0 []) 0
                           (["net profit"] ++ ["net profit"]))
    = [[]; []; [InkTick 47 310]].
Proof.
  intros inst. split; [reflexivity|]. split.
  - apply (proj1 (tick_dedup_within_pass (T := Sample.toolkit))).
    apply elem_of_singleton. reflexivity.
  - vm_compute. reflexivity.
Defined.

(** The registry lives for one call of [annotate_correct_lines], which
    creates it empty: a second call on the document the first call left
    draws the tick of "net profit" again. *)
Example registry_is_per_call :
  let cells := [VStr "['net profit', 'gross margin']"] in
  ∃ st1 st2,
    annotate_correct_lines (T := Sample.toolkit) Sample.doc3 cells = Some st1
    ∧ annotate_correct_lines (T := Sample.toolkit) (ts_doc st1) cells
      = Some st2
    ∧ page_ink <$> ts_doc st1 = [[]; []; [InkTick 47 310]]
    ∧ page_ink <$> ts_doc st2 = [[]; []; [InkTick 47 310; InkTick 47 310]].
Proof.
  intros cells.
  destruct (annotate_correct_lines (T := Sample.toolkit) Sample.doc3 cells)
    as [st1|] eqn:H1; [|discriminate].
  destruct (annotate_correct_lines (T := Sample.toolkit) (ts_doc st1) cells)
    as [st2|] eqn:H2.
  - exists st1, st2. split; [done|]. split; [done|].
    injection H1 as <-. injection H2 as <-. vm_compute. done.
  - injection H1 as <-. discriminate.
Qed.

(** ** Flattening of the rubric cells *)

Section Cells.
Context {T : Toolkit}.

Lemma flatten_lines_mapM correct_lines :
  flatten_lines correct_lines = (@concat string) <$> mapM flatten_entry correct_lines.
Proof.
  induction correct_lines as [|entry rest IH]; [done|].
  simpl. rewrite IH.
  destruct (flatten_entry entry) as [here|]; [|done].
  by destruct (mapM flatten_entry rest).
Qed.

Lemma flatten_lines_app xs ys :
  flatten_lines (xs ++ ys)
  = here ← flatten_lines xs; there ← flatten_lines ys; Some (here ++ there).
Proof.
  induction xs as [|entry rest IH]; simpl.
  - by destruct (flatten_lines ys).
  - rewrite IH. destruct (flatten_entry entry) as [e|]; [|done].
    destruct (flatten_lines rest) as [r|]; [|done]. simpl.
    destruct (flatten_lines ys) as [y|]; [|done]. simpl.
    by rewrite app_assoc.
Qed.
End Cells.

(** C4, as the code has it. In [annotate_correct_lines] a cell on which
    [ast.literal_eval] fails is used as one literal line, trimmed, if it is
    a string that is not blank; a cell that evaluates to a list gives its
    strings that are not blank, trimmed, in their order; a cell that
    evaluates to a string gives that string; a cell that evaluates to
    anything else gives nothing; and the flat list is the concatenation of
    what the cells give, in the order of the cells. In
    [underline_correct_words] a cell on which [ast.literal_eval] fails, or
    that does not evaluate to a list, is skipped: nothing is searched or
    drawn for it. *)
Theorem rubric_cells_flattened {T : Toolkit} :
  (∀ s, literal_eval (VStr s) = Malformed →
        flatten_entry (VStr s)
        = Some (if Py.truthy (Py.strip s) then [Py.strip s] else []))
  ∧ (∀ entry parsed, literal_eval entry = Parsed (VList parsed) →
        flatten_entry entry = Some (concat (usable <$> parsed)))
  ∧ (∀ entry s, literal_eval entry = Parsed (VStr s) →
        flatten_entry entry
        = Some (if Py.truthy (Py.strip s) then [Py.strip s] else []))
  ∧ (∀ entry, literal_eval entry = Parsed VOther →
        flatten_entry entry = Some [])
  ∧ (∀ correct_lines,
        flatten_lines correct_lines
        = (@concat string) <$> mapM flatten_entry correct_lines)
  ∧ (∀ xs ys,
        flatten_lines (xs ++ ys)
        = here ← flatten_lines xs; there ← flatten_lines ys;
          Some (here ++ there))
  ∧ (∀ page word_entry rest,
        literal_eval word_entry = Malformed →
        underline_correct_words page (word_entry :: rest)
        = '(page', ev) ← underline_correct_words page rest;
          Some (page', LogUnparsedWords word_entry :: ev))
  ∧ (∀ page word_entry rest v,
        literal_eval word_entry = Parsed v → (∀ l, v ≠ VList l) →
        underline_correct_words page (word_entry :: rest)
        = '(page', ev) ← underline_correct_words page rest;
          Some (page', LogInvalidWords word_entry :: ev)).
Proof.
  repeat split.
  - intros s Hs. unfold flatten_entry. by rewrite Hs.
  - intros entry parsed He. unfold flatten_entry. by rewrite He.
  - intros entry s He. unfold flatten_entry. by rewrite He.
  - intros entry He. unfold flatten_entry. by rewrite He.
  - apply flatten_lines_mapM.
  - apply flatten_lines_app.
  - intros page word_entry rest He. simpl. by rewrite He.
  - intros page word_entry rest v He Hv. simpl. rewrite He.
    destruct v as [s|l|]; [done|by destruct (Hv l)|done].
Qed.

Lemma rubric_cells_flattened_witness :
  literal_eval (Toolkit := Sample.toolkit) (VStr "  lone line ") = Malformed
  ∧ flatten_entry (T := Sample.toolkit) (VStr "  lone line ")
    = Some ["lone line"].
Proof.
  split; [reflexivity|].
  apply (proj1 (rubric_cells_flattened (T := Sample.toolkit))). reflexivity.
Defined.

(** A list cell flattens to its entries in order, a bare text to itself,
    trimmed. *)
Example flatten_round_trip :
  flatten_lines (T := Sample.toolkit)
    [VStr "['line one', 'line two']"; VStr "  lone line "]
  = Some ["line one"; "line two"; "lone line"].
Proof. reflexivity. Qed.

(** C4 as stated fails for [correct_words]: the cell "gamma" does not
    evaluate, the page holds the word, and the cell is skipped where its
    use as a literal phrase underlines the word; and for [correct_lines] a
    cell that evaluates to a number is dropped. *)
Lemma unparsed_word_cell_counterexample :
  literal_eval (Toolkit := Sample.toolkit) (VStr "gamma") = Malformed
  ∧ underline_correct_words (T := Sample.toolkit) Sample.words_page
      [VStr "gamma"]
    = Some (Sample.words_page, [LogUnparsedWords (VStr "gamma")])
  ∧ (page_ink <$> underline_words (T := Sample.toolkit) Sample.words_page
                    [VStr "gamma"])
    = Some [InkLine 72 152 272 152]
  ∧ literal_eval (Toolkit := Sample.toolkit) (VStr "42") = Parsed VOther
  ∧ flatten_lines (T := Sample.toolkit) [VStr "42"] = Some [].
Proof. vm_compute. done. Qed.

(** ** Question spans *)

Section Spans.
Context {T : Toolkit}.

Lemma insert_by_y_perm e l : insert_by_y e l ≡ₚ e :: l.
Proof.
  induction l as [|e' l IH]; simpl; [done|].
  destruct (Py.gt _ _); [|done]. rewrite IH. apply perm_swap.
Qed.

Lemma sort_by_y_perm l : sort_by_y l ≡ₚ l.
Proof.
  induction l as [|e l IH]; simpl; [done|].
  rewrite insert_by_y_perm. by rewrite IH.
Qed.

Lemma insert_by_y_sorted e l :
  Sorted by_anchor l → Sorted by_anchor (insert_by_y e l).
Proof.
  induction l as [|e' l IH]; intros Hs; simpl.
  - repeat constructor.
  - destruct (Py.gt _ _) eqn:Hgt.
    + apply gt_true in Hgt. inversion Hs as [|?? Hl Hhd]; subst.
      constructor; [by apply IH|].
      destruct l as [|e'' l]; simpl.
      * constructor. unfold by_anchor. by apply Qlt_le_weak.
      * destruct (Py.gt _ _); constructor.
        -- by inversion Hhd.
        -- unfold by_anchor. by apply Qlt_le_weak.
    + apply gt_false in Hgt. constructor; [done|]. by constructor.
Qed.

Lemma sort_by_y_sorted l : Sorted by_anchor (sort_by_y l).
Proof.
  induction l as [|e l IH]; simpl; [constructor|].
  by apply insert_by_y_sorted.
Qed.

Lemma sorted_adjacent l : ∀ i a b,
  Sorted by_anchor l → l !! i = Some a → l !! S i = Some b → by_anchor a b.
Proof.
  induction l as [|e l IH]; intros i a b Hs Ha Hb; [done|].
  inversion Hs as [|?? Hl Hhd]; subst. destruct i as [|i]; simpl in *.
  - injection Ha as ->. destruct l as [|e' l]; [done|].
    simpl in Hb. injection Hb as ->. by inversion Hhd.
  - by eapply IH.
Qed.
End Spans.

(** C6. The question positions of a page are those located, sorted
    ascending by anchor; the extent of entry [i] ends at the anchor of
    entry [i + 1], and the extent of the last entry ends at the page
    bottom. *)
Theorem spans_sorted_and_adjacent {T : Toolkit} (page : Page) :
  let question_positions :=
    sort_by_y (locate_questions page (get_text page)) in
  question_positions ≡ₚ locate_questions page (get_text page)
  ∧ ∀ i entry, question_positions !! i = Some entry →
      match question_positions !! S i with
      | Some next =>
          (entry.1.2 <= next.1.2)%Q
          ∧ span_end question_positions page i = next.1.2
      | None => span_end question_positions page i = page_height page
      end.
Proof.
  intros qp. split; [apply sort_by_y_perm|].
  intros i entry Hi. unfold span_end.
  destruct (qp !! S i) as [next|] eqn:Hnext; [|done].
  split; [|done].
  apply (sorted_adjacent qp i entry next); [apply sort_by_y_sorted|done..].
Qed.

Lemma spans_sorted_and_adjacent_witness :
  let question_positions :=
    sort_by_y (locate_questions (T := Sample.toolkit) Sample.labels_page
                 (get_text (Toolkit := Sample.toolkit) Sample.labels_page)) in
  question_positions !! 1%nat = Some ("1.2", 250 : Q, 28%nat)
  ∧ (250 <= 400)%Q
  ∧ span_end question_positions Sample.labels_page 1 = 400%Q.
Proof.
  intros qp. split; [reflexivity|].
  exact (proj2 (spans_sorted_and_adjacent (T := Sample.toolkit)
                  Sample.labels_page) 1%nat ("1.2", 250 : Q, 28%nat) eq_refl).
Defined.

(** Labels at heights 100, 250 and 400 on a page 800 high: the extents are
    [100, 250), [250, 400) and [400, 800). *)
Example span_extents :
  let question_positions :=
    sort_by_y (locate_questions (T := Sample.toolkit) Sample.labels_page
                 (get_text (Toolkit := Sample.toolkit) Sample.labels_page)) in
  imap (λ i entry, (entry.1.1, entry.1.2,
                    span_end question_positions Sample.labels_page i))
       question_positions
  = [("1.1", 100 : Q, 250 : Q); ("1.2", 250 : Q, 400 : Q);
     ("1.3", 400 : Q, 800 : Q)].
Proof. reflexivity. Qed.

(** ** The marks stoplist *)

(** C7. When the line of the page text around a question label contains,
    after lower-casing, one of "marks", "/", "score" and "total", the turn
    of the loop for that label places no score text: the page reaches the
    comment step as it was and no question is recorded as annotated. If a
    comment is registered for the label it is placed all the same, from
    the anchor of the label down to 5 points above the end of its span. *)
Theorem stoplist_skips_score_not_comment {T : Toolkit}
    (scores : gmap string string) (comments : gmap string PyVal)
    (text_on_page : string) (question_positions : list (string * Q * nat))
    (page : Page) (annotated_questions : gset string) (trace : list Event)
    (i : nat) (q_num : string) (y0 : Q) (start_pos : nat) :
  (∃ keyword, keyword ∈ ["marks"; "/"; "score"; "total"]
     ∧ Py.contains keyword (Py.lower (surrounding text_on_page start_pos))
       = true) →
  let y1 := span_end question_positions page i in
  annotate_question scores comments text_on_page question_positions
    (page, annotated_questions, trace) i (q_num, y0, start_pos)
  = match comments !! q_num with
    | Some comment =>
        let '(page', ev) :=
          insert_wrapped_text page (page_width page - 90)%Q y0 comment 90 8
                              red "helv" (y1 - 5)%Q in
        (page', annotated_questions, trace ++ [LogScoreSkipped q_num] ++ ev)
    | None => (page, annotated_questions, trace ++ [LogScoreSkipped q_num] ++ [])
    end.
Proof.
  intros (keyword & Hin & Hcontains) y1.
  assert (looks_like_score (surrounding text_on_page start_pos) = true) as Hl.
  { unfold looks_like_score, stoplist. apply existsb_exists.
    exists keyword. split; [by apply list_elem_of_In|done]. }
  unfold annotate_question, place_score, place_comment. rewrite Hl.
  fold y1. destruct (comments !! q_num) as [comment|]; [|done].
  by destruct (insert_wrapped_text _ _ _ _ _ _ _ _ _).
Qed.

Lemma stoplist_skips_score_not_comment_witness :
  let text := get_text (Toolkit := Sample.toolkit) Sample.marks_page in
  let comments := comment_dict Sample.rows in
  Py.contains "marks" (Py.lower (surrounding text 0)) = true
  ∧ comments !! "2.1" = Some (VStr "good work")
  ∧ page_ink (annotate_question (T := Sample.toolkit)
                (score_dict Sample.rows) comments text
                [("2.1", 100 : Q, 0%nat); ("2.2", 300 : Q, 14%nat)]
                (Sample.marks_page, ∅, []) 0 ("2.1", 100 : Q, 0%nat)).1.1
    = [InkText 510 100 "good work" 8 red "helv"].
Proof.
  intros text comments. split; [reflexivity|].
  assert (comments !! "2.1" = Some (VStr "good work")) as Hc by reflexivity.
  split; [done|].
  rewrite (stoplist_skips_score_not_comment (T := Sample.toolkit)).
  - rewrite Hc. reflexivity.
  - exists "marks". split; [|reflexivity].
    apply list_elem_of_In. simpl. tauto.
Defined.

(** The label "2.1" on the line "2.1 / 5 marks" gets its comment and no
    score; the label "2.2" gets both. *)
Example marks_line_page :
  (λ r, page_ink r.1)
    <$> annotate_page (T := Sample.toolkit) (score_dict Sample.rows)
          (comment_dict Sample.rows) [] Sample.marks_page
  = Some [InkText 510 100 "good work" 8 red "helv";
          InkText 32 310 "4/5" 12 blue "helv";
          InkText 510 300 "well argued" 8 red "helv"].
Proof. vm_compute. reflexivity. Qed.

(** ** The orchestrator: aborting and saving *)

(** C8. [annotate_pdf] returns false while it is still loading its inputs,
    before any annotation step has run, with no effect on the file system
    and no document annotated, when the input PDF does not exist, when the
    grades CSV does not exist, when reading the CSV raises (the file is
    empty, or another error), or when opening the document raises. *)
Theorem annotate_pdf_aborts {T : Toolkit} (w : World)
    (input_dir output_dir student_name grades_csv_path : string) :
  path_exists w input_dir = false
  ∨ path_exists w grades_csv_path = false
  ∨ read_csv w grades_csv_path = CsvEmptyData
  ∨ read_csv w grades_csv_path = CsvError
  ∨ fitz_open w input_dir = None →
  let res := annotate_pdf w input_dir output_dir student_name
                          grades_csv_path in
  res = aborted
  ∧ run_ok res = false ∧ run_stage res = Loading
  ∧ run_effects res = [] ∧ run_doc res = None.
Proof.
  intros Hcase res. assert (res = aborted) as ->; [|done].
  subst res. unfold annotate_pdf.
  destruct (path_exists w input_dir) eqn:Hin; [|done].
  destruct (path_exists w grades_csv_path) eqn:Hcsv; [|done]. simpl.
  destruct (read_csv w grades_csv_path) as [rows| |] eqn:Hread; [|done..].
  destruct (fitz_open w input_dir) as [doc|] eqn:Hopen; [|done].
  destruct Hcase as [?|[?|[?|[?|?]]]]; congruence.
Qed.

Lemma annotate_pdf_aborts_witness :
  path_exists Sample.world "in/adam.pdf" = false
  ∧ annotate_pdf (T := Sample.toolkit) Sample.world "in/adam.pdf" "out" "Adam"
      "grades/eve.csv" = aborted.
Proof.
  split; [reflexivity|].
  apply (annotate_pdf_aborts (T := Sample.toolkit)). left. reflexivity.
Defined.

Lemma chars_append a b : Py.chars (a +:+ b) = Py.chars a ++ Py.chars b.
Proof. induction a as [|c a IH]; simpl; [done|]. by rewrite IH. Qed.

Lemma truthy_append_r a b : Py.truthy b = true → Py.truthy (a +:+ b) = true.
Proof. destruct a; [done|]. done. Qed.

Lemma startswith_append a b :
  Py.truthy a = true →
  Path.startswith_sep (a +:+ b) = Path.startswith_sep a.
Proof. by destruct a. Qed.

Lemma endswith_append a b :
  Py.truthy b = true →
  Path.endswith_sep (a +:+ b) = Path.endswith_sep b.
Proof.
  intros Hb. unfold Path.endswith_sep. rewrite chars_append, rev_app_distr.
  apply truthy_chars in Hb.
  destruct (Py.chars b) as [|c l] using rev_ind; [done|].
  by rewrite rev_app_distr.
Qed.

(** The joined path, when no component brings a separator of its own. *)
Lemma join_plain output_dir lower :
  Py.truthy output_dir = true → Path.endswith_sep output_dir = false →
  Py.truthy lower = true → Path.startswith_sep lower = false →
  Path.endswith_sep lower = false →
  Path.join output_dir [lower; lower +:+ "_annotated.pdf"]
  = (output_dir +:+ "/" +:+ lower) +:+ "/" +:+ lower +:+ "_annotated.pdf".
Proof.
  intros Hd Hde Hl Hls Hle. unfold Path.join. simpl.
  unfold Path.join_step at 2. rewrite Hls, Hd, Hde. simpl.
  unfold Path.join_step.
  rewrite startswith_append, Hls by done.
  rewrite truthy_append_r by (by apply truthy_append_r).
  rewrite endswith_append by (by apply truthy_append_r).
  rewrite endswith_append, Hle by done. done.
Qed.

(** C9. When [annotate_pdf] returns true it has created the directory of
    the output path and then saved the annotated document, once, at
    [os.path.join(output_dir, lower, lower + "_annotated.pdf")] with
    [lower] the lower-cased student name; the path depends on the student
    name only through [lower]; and it reads
    [<output_dir>/<lower>/<lower>_annotated.pdf] when the output directory
    is not empty and does not end with a separator and [lower] is not
    empty and neither starts nor ends with one. *)
Theorem saved_once_at_student_path {T : Toolkit} (w : World)
    (input_dir output_dir student_name grades_csv_path : string) :
  let res := annotate_pdf w input_dir output_dir student_name
                          grades_csv_path in
  let lower := Py.lower student_name in
  let path := Path.join output_dir [lower; lower +:+ "_annotated.pdf"] in
  (run_ok res = true →
   ∃ doc', run_stage res = Done ∧ run_doc res = Some doc'
           ∧ run_effects res = [MadeDirs (Path.dirname path);
                                SavedPdf path doc'])
  ∧ (∀ other, Py.lower other = lower → output_path output_dir other = path)
  ∧ (Py.truthy output_dir = true → Path.endswith_sep output_dir = false →
     Py.truthy lower = true → Path.startswith_sep lower = false →
     Path.endswith_sep lower = false →
     path = (output_dir +:+ "/" +:+ lower) +:+ "/" +:+ lower
            +:+ "_annotated.pdf").
Proof.
  intros res lower path. split; [|split].
  - subst res. unfold annotate_pdf.
    destruct (path_exists w input_dir); [|done].
    destruct (path_exists w grades_csv_path); [|done]. simpl.
    destruct (read_csv w grades_csv_path) as [rows| |]; [|done..].
    destruct (fitz_open w input_dir) as [doc|]; [|done].
    destruct (annotate_doc rows doc) as [doc'|]; [|done].
    fold lower. unfold output_path. fold lower. fold path.
    destruct (makedirs_ok w _); [|done].
    destruct (save_ok w path); [|done]. simpl.
    intros _. by exists doc'.
  - intros other Hother. unfold output_path. by rewrite Hother.
  - apply join_plain.
Qed.

Lemma saved_once_at_student_path_witness :
  let res := annotate_pdf (T := Sample.toolkit) Sample.world "in/eve.pdf"
               "out" "Eve" "grades/eve.csv" in
  run_ok res = true
  ∧ Path.join "out" ["eve"; "eve_annotated.pdf"]
    = "out/eve/eve_annotated.pdf"
  ∧ ∃ doc', run_effects res
            = [MadeDirs "out/eve"; SavedPdf "out/eve/eve_annotated.pdf" doc'].
Proof.
  intros res. assert (run_ok res = true) as Hok by (vm_compute; done).
  split; [done|].
  destruct (saved_once_at_student_path (T := Sample.toolkit) Sample.world
              "in/eve.pdf" "out" "Eve" "grades/eve.csv")
    as (Hsave & _ & Hplain).
  split; [by apply Hplain|].
  destruct (Hsave Hok) as (doc' & _ & _ & Heff). by exists doc'.
Defined.
